(** * pycoin: signature checking opcodes of the script interpreter

    A shallow embedding of [pycoin/tx/script/checksigops.py]: the strict-DER
    validator, the low-S and hash-type checks, the signature-blob parser,
    the public-key encoding check, [do_OP_CHECKSIG], the multisig matcher
    ([sig_blob_matches], [find_public_pair]), [do_OP_CHECKMULTISIG] and the
    two VERIFY opcodes.

    Python integers are unbounded, so they are [Z]; a [bytes] object is a
    list of [Byte.byte]; an exception is a value of [exn] and a function that
    may raise returns a [result]; the interpreter object [vm] is a record
    threaded through a state-and-exception monad. *)

From Stdlib Require Import ZArith Lia List.
From Stdlib.Strings Require Import Byte.
From stdpp Require Import base option list gmap.

Local Open Scope Z_scope.

(** ** Exceptions and results *)

(** [errno]: the module is imported by the source ([from . import errno]);
    only the names of the codes are used, so they are kept symbolic. *)
Inductive errno : Set :=
  | SIG_DER | SIG_HIGH_S | SIG_HASHTYPE | PUBKEYTYPE | WITNESS_PUBKEYTYPE
  | NULLFAIL | SIG_NULLDUMMY | PUBKEY_COUNT | SIG_COUNT | VERIFY.

(** The exception classes the source raises or catches.  [ScriptError]
    carries the error code given as second argument of the constructor call,
    [None] when the call passes a message only; the message itself is not
    modelled.  An [except] clause catches the classes it lists and their
    subclasses: [NoSuchPointError] is a subclass of [ValueError], the other
    classes are unrelated. *)
Inductive exn : Set :=
  | ScriptError (code : option errno)
  | ValueError
  | IndexError
  | UnexpectedDER
  | EncodingError
  | NoSuchPointError
  | TypeError
  | OtherError (tag : Z).

Inductive result (A : Type) : Type :=
  | Ok (a : A)
  | Raise (e : exn).
Arguments Ok {A} a.
Arguments Raise {A} e.

#[global] Instance result_ret : MRet result := fun _ a => Ok a.
#[global] Instance result_bind : MBind result := fun _ _ f r =>
  match r with
  | Ok a => f a
  | Raise e => Raise e
  end.

(** [if c: raise e] *)
Definition raise_if (c : bool) (e : exn) : result unit :=
  if c then Raise e else Ok tt.

(** [if c: body] for a body that returns nothing. *)
Definition when (c : bool) (body : result unit) : result unit :=
  if c then body else Ok tt.

(** Truth value of a Python integer. *)
Definition truthy (n : Z) : bool := negb (n =? 0).

(** ** Bytes *)

Abbreviation blob := (list byte).

Definition byte2Z (b : byte) : Z := Z.of_N (Byte.to_N b).

(** [iterbytes]: the bytes of a blob as integers. *)
Definition iterbytes (b : blob) : list Z := map byte2Z b.

Definition len {A} (l : list A) : Z := Z.of_nat (length l).

(** [l[i]] on a Python list: a negative index counts from the end, an index
    out of range raises [IndexError]. *)
Definition index {A} (l : list A) (i : Z) : result A :=
  let j := if bool_decide (i < 0) then i + len l else i in
  if bool_decide (j < 0) then Raise IndexError
  else match l !! Z.to_nat j with
       | Some x => Ok x
       | None => Raise IndexError
       end.

(** [byte2int(b)]: the first byte. *)
Definition byte2int (b : blob) : result Z := index (iterbytes b) 0.

(** [indexbytes(b, i)] *)
Definition indexbytes (b : blob) (i : Z) : result Z := index (iterbytes b) i.

(** [b[:-1]] *)
Definition all_but_last (b : blob) : blob := removelast b.

(** ** Strict DER validation *)

Definition _check_valid_signature_1 (sig : list Z) : result unit :=
  let ls := len sig in
  raise_if (bool_decide (ls < 9 ∨ ls > 73)) (ScriptError (Some SIG_DER));;
  b0 ← index sig 0;
  raise_if (bool_decide (b0 ≠ 0x30)) (ScriptError (Some SIG_DER));;
  b1 ← index sig 1;
  raise_if (bool_decide (b1 ≠ ls - 3)) (ScriptError (Some SIG_DER));;
  r_len ← index sig 3;
  raise_if (bool_decide (5 + r_len >= ls)) (ScriptError (Some SIG_DER)).

(** [n > 1 and sig[i] == 0 and not (sig[i + 1] & 0x80)], evaluated left to
    right with Python's short circuit. *)
Definition redundant_leading_zero (sig : list Z) (n i : Z) : result bool :=
  if bool_decide (n > 1) then
    b ← index sig i;
    if bool_decide (b = 0) then
      b' ← index sig (i + 1);
      mret (negb (truthy (Z.land b' 0x80)))
    else mret false
  else mret false.

Definition _check_valid_signature_2 (sig : list Z) : result unit :=
  let ls := len sig in
  r_len ← index sig 3;
  s_len ← index sig (5 + r_len);
  raise_if (bool_decide (r_len + s_len + 7 ≠ ls)) (ScriptError (Some SIG_DER));;
  b2 ← index sig 2;
  raise_if (bool_decide (b2 ≠ 2)) (ScriptError (Some SIG_DER));;
  raise_if (bool_decide (r_len = 0)) (ScriptError (Some SIG_DER));;
  b4 ← index sig 4;
  raise_if (truthy (Z.land b4 0x80)) (ScriptError (Some SIG_DER));;
  cr ← redundant_leading_zero sig r_len 4;
  raise_if cr (ScriptError (Some SIG_DER));;
  bs ← index sig (r_len + 4);
  raise_if (bool_decide (bs ≠ 2)) (ScriptError (Some SIG_DER));;
  raise_if (bool_decide (s_len = 0)) (ScriptError (Some SIG_DER));;
  bs0 ← index sig (r_len + 6);
  raise_if (truthy (Z.land bs0 0x80)) (ScriptError (Some SIG_DER));;
  cs ← redundant_leading_zero sig s_len (r_len + 6);
  raise_if cs (ScriptError (Some SIG_DER)).

Definition check_valid_signature (sig : blob) : result unit :=
  let sig := iterbytes sig in
  _check_valid_signature_1 sig;;
  _check_valid_signature_2 sig.

(** ** The interpreter object *)

(** The part of [vm] the opcodes touch: the operand stack (top first), the
    operation counter [vm.op_count] and the verification flags [vm.flags]. *)
Record VM : Type := mkVM {
  stack : list blob;
  op_count : Z;
  flags : Z
}.

(** The state-and-exception monad of the opcodes.  A raise leaves the
    changes made to [vm] before it in place. *)
Definition vmM (A : Type) : Type := VM → result A * VM.

#[global] Instance vmM_ret : MRet vmM := fun _ a vm => (Ok a, vm).
#[global] Instance vmM_bind : MBind vmM := fun _ _ f m vm =>
  match m vm with
  | (Ok a, vm') => f a vm'
  | (Raise e, vm') => (Raise e, vm')
  end.

Definition lift {A} (r : result A) : vmM A := fun vm => (r, vm).

(** ** Collaborators

    What the source imports from modules outside this file, taken as
    parameters: the constants of [flags.py], the curve constant read by the
    low-S check, the [ecdsa], [der] and [encoding] primitives, and the
    members of [vm] the opcodes call. *)
Class Collaborators : Type := {
  (* flags.py *)
  SIGHASH_ALL : Z;
  SIGHASH_SINGLE : Z;
  SIGHASH_ANYONECANPAY : Z;
  VERIFY_NULLDUMMY : Z;
  VERIFY_NULLFAIL : Z;
  VERIFY_STRICTENC : Z;
  VERIFY_DERSIG : Z;
  VERIFY_LOW_S : Z;
  VERIFY_WITNESS_PUBKEYTYPE : Z;
  (* ecdsa.generator_secp256k1.curve().p() *)
  curve_p : Z;
  (* ecdsa.verify(ecdsa.generator_secp256k1, public_pair, hash, sig_pair):
     the boolean it returns, or what it raises *)
  ecdsa_verify : Z * Z → Z → Z * Z → result bool;
  (* ecdsa.possible_public_pairs_for_signature(generator, hash, sig_pair) *)
  possible_public_pairs_for_signature : Z → Z * Z → result (list (Z * Z));
  (* encoding.sec_to_public_pair(blob, strict=...) *)
  sec_to_public_pair : blob → bool → result (Z * Z);
  (* der.sigdecode_der(blob, use_broken_open_ssl_mechanism=True) *)
  sigdecode_der : blob → result (Z * Z);
  (* vm.VM_TRUE, vm.VM_FALSE *)
  VM_TRUE : blob;
  VM_FALSE : blob;
  (* the conversion vm.pop_int() applies to the popped item *)
  int_from_script_bytes : blob → result Z;
  (* what vm.pop() raises on an empty stack *)
  pop_empty : exn;
  (* vm.signature_for_hash_type_f(signature_type, blobs, vm) *)
  signature_for_hash_type_f : Z → list blob → VM → result Z
}.

Section Checksigops.

Context `{C : Collaborators}.

(** ** Low-S, hash type, signature blobs *)

Definition check_low_der_signature (sig_pair : Z * Z) : result unit :=
  let '(r, s) := sig_pair in
  let hi_s := curve_p - s in
  raise_if (bool_decide (hi_s < s)) (ScriptError (Some SIG_HIGH_S)).

Definition check_defined_hashtype_signature (sig : blob) : result unit :=
  (* raise ScriptError("signature is length 0"): no error code is passed *)
  raise_if (bool_decide (len sig = 0)) (ScriptError None);;
  b ← indexbytes sig (-1);
  let hash_type := Z.land b (Z.lnot SIGHASH_ANYONECANPAY) in
  raise_if (bool_decide (hash_type < SIGHASH_ALL ∨ hash_type > SIGHASH_SINGLE))
           (ScriptError (Some SIG_HASHTYPE)).

(** [ord(b[-1:])]: the last byte; [ord] of an empty slice is a [TypeError]. *)
Definition ord_last (b : blob) : result Z :=
  match last (iterbytes b) with
  | Some x => Ok x
  | None => Raise TypeError
  end.

Definition parse_signature_blob (sig_blob : blob) (flags : Z) : result ((Z * Z) * Z) :=
  raise_if (bool_decide (len sig_blob = 0)) ValueError;;
  when (truthy (Z.land flags (Z.lor (Z.lor VERIFY_DERSIG VERIFY_LOW_S) VERIFY_STRICTENC)))
       (check_valid_signature sig_blob);;
  when (truthy (Z.land flags VERIFY_STRICTENC))
       (check_defined_hashtype_signature sig_blob);;
  sig_pair ← sigdecode_der (all_but_last sig_blob);
  signature_type ← ord_last sig_blob;
  when (truthy (Z.land flags VERIFY_LOW_S))
       (check_low_der_signature sig_pair);;
  mret (sig_pair, signature_type).

(** ** Public keys *)

Definition check_public_key_encoding (blob : blob) : result unit :=
  let lb := len blob in
  let bad := Raise (ScriptError (Some PUBKEYTYPE)) in
  if bool_decide (lb >= 33) then
    fb ← byte2int blob;
    if bool_decide (fb = 4) then
      if bool_decide (lb = 65) then Ok tt else bad
    else if bool_decide (fb = 2 ∨ fb = 3) then
      if bool_decide (lb = 33) then Ok tt else bad
    else bad
  else bad.

(** The witness check both opcodes inline:
    [if byte2int(blob) not in (2, 3) or len(blob) != 33: raise ...] *)
Definition check_witness_pubkeytype (blob : blob) : result unit :=
  fb ← byte2int blob;
  raise_if (bool_decide (¬ (fb = 2 ∨ fb = 3)) || bool_decide (len blob ≠ 33))
           (ScriptError (Some WITNESS_PUBKEYTYPE)).

(** ** Stack operations of [vm] *)

Definition pop : vmM blob := fun vm =>
  match stack vm with
  | [] => (Raise pop_empty, vm)
  | b :: st => (Ok b, mkVM st (op_count vm) (flags vm))
  end.

Definition pop_int : vmM Z :=
  b ← pop; lift (int_from_script_bytes b).

Definition append (b : blob) : vmM unit := fun vm =>
  (Ok tt, mkVM (b :: stack vm) (op_count vm) (flags vm)).

(** [vm.op_count += n] *)
Definition add_op_count (n : Z) : vmM unit := fun vm =>
  (Ok tt, mkVM (stack vm) (op_count vm + n) (flags vm)).

(** [[vm.pop() for _ in range(n)]] *)
Fixpoint pop_list (n : nat) : vmM (list blob) :=
  match n with
  | O => mret []
  | S n' => b ← pop; bs ← pop_list n'; mret (b :: bs)
  end.

(** ** CHECKSIG *)

(** The exceptions caught by [except (der.UnexpectedDER, ValueError, EncodingError)];
    [NoSuchPointError] is caught as a [ValueError]. *)
Definition checksig_caught (e : exn) : bool :=
  match e with
  | UnexpectedDER | ValueError | NoSuchPointError | EncodingError => true
  | _ => false
  end.

(** The body of the [try] block of [do_OP_CHECKSIG]; it hands the names the
    rest of the function reads to the code after the block. *)
Definition do_OP_CHECKSIG_try (flags : Z) : vmM (blob * (Z * Z) * Z * (Z * Z)) :=
  pair_blob ← pop;
  sig_blob ← pop;
  let verify_strict := truthy (Z.land flags VERIFY_STRICTENC) in
  lift (when verify_strict (check_public_key_encoding pair_blob));;
  lift (when (truthy (Z.land flags VERIFY_WITNESS_PUBKEYTYPE))
             (check_witness_pubkeytype pair_blob));;
  '(sig_pair, signature_type) ← lift (parse_signature_blob sig_blob flags);
  public_pair ← lift (sec_to_public_pair pair_blob verify_strict);
  mret (sig_blob, sig_pair, signature_type, public_pair).

Definition do_OP_CHECKSIG : vmM unit := fun vm =>
  let flags := flags vm in
  match do_OP_CHECKSIG_try flags vm with
  | (Raise e, vm') =>
      if checksig_caught e then append VM_FALSE vm' else (Raise e, vm')
  | (Ok (sig_blob, sig_pair, signature_type, public_pair), vm') =>
      match signature_for_hash_type_f signature_type [sig_blob] vm' with
      | Raise e => (Raise e, vm')
      | Ok signature_hash =>
          match ecdsa_verify public_pair signature_hash sig_pair with
          | Raise e => (Raise e, vm')
          | Ok true => append VM_TRUE vm'
          | Ok false =>
              if truthy (Z.land flags VERIFY_NULLFAIL) && bool_decide (len sig_blob > 0)
              then (Raise (ScriptError (Some NULLFAIL)), vm')
              else append VM_FALSE vm'
          end
      end
  end.

(** ** The multisig matcher *)

(** [public_pair in ppp], where [public_pair] is [None] after an
    [EncodingError]. *)
Definition public_pair_in (public_pair : option (Z * Z)) (ppp : list (Z * Z)) : bool :=
  match public_pair with
  | Some p => bool_decide (p ∈ ppp)
  | None => false
  end.

(** The [while] loop consumes its local [public_pair_blobs] one blob per
    round, so it is a recursion on that list. *)
Fixpoint find_public_pair (public_pair_blobs : list blob) (ppp : list (Z * Z))
    (signature_count : Z) (strict_encoding : bool)
    (verify_witness_pubkeytype : Z) (ppb_idx : Z) : result Z :=
  if bool_decide (len public_pair_blobs > signature_count) then
    match public_pair_blobs with
    | [] => Raise IndexError
    | public_pair_blob :: public_pair_blobs' =>
        let ppb_idx := ppb_idx + 1 in
        when strict_encoding (check_public_key_encoding public_pair_blob);;
        when (truthy verify_witness_pubkeytype)
             (check_witness_pubkeytype public_pair_blob);;
        public_pair ←
          match sec_to_public_pair public_pair_blob strict_encoding with
          | Ok p => Ok (Some p)
          | Raise EncodingError => Ok None
          | Raise e => Raise e
          end;
        if public_pair_in public_pair ppp then Ok ppb_idx
        else find_public_pair public_pair_blobs' ppp signature_count
                              strict_encoding verify_witness_pubkeytype ppb_idx
    end
  else Ok (-1).

(** One round of the [while] loop of [sig_blob_matches] per signature blob.
    [public_pair_blobs] is never rebound by this function: every call of
    [find_public_pair] receives the whole list. *)
Fixpoint sig_blob_matches_loop (vm : VM) (blobs_to_remove public_pair_blobs : list blob)
    (flags : Z) (strict_encoding : bool)
    (sig_blobs : list blob) (sig_cache : gmap Z Z)
    (sig_blob_indices : list Z) (ppb_idx : Z) : result (list Z) :=
  match sig_blobs with
  | [] => Ok sig_blob_indices
  | sig_blob :: sig_blobs' =>
      if bool_decide (len sig_blobs <= len public_pair_blobs) then
        if bool_decide (-1 ∈ sig_blob_indices) then Ok sig_blob_indices
        else
          match parse_signature_blob sig_blob flags with
          | Raise UnexpectedDER | Raise ValueError | Raise NoSuchPointError =>
              sig_blob_matches_loop vm blobs_to_remove public_pair_blobs flags
                strict_encoding sig_blobs' sig_cache (sig_blob_indices ++ [-1]) ppb_idx
          | Raise e => Raise e
          | Ok (sig_pair, signature_type) =>
              (* fill the cache if the type is new, then read it *)
              '(signature_hash, sig_cache) ←
                match sig_cache !! signature_type with
                | Some h => Ok (h, sig_cache)
                | None =>
                    h ← signature_for_hash_type_f signature_type blobs_to_remove vm;
                    Ok (h, <[signature_type := h]> sig_cache)
                end;
              ppp ←
                match possible_public_pairs_for_signature signature_hash sig_pair with
                | Ok l => Ok l
                | Raise NoSuchPointError => Ok []
                | Raise e => Raise e
                end;
              ppb_idx ← find_public_pair public_pair_blobs ppp (len sig_blobs')
                          strict_encoding (Z.land flags VERIFY_WITNESS_PUBKEYTYPE) ppb_idx;
              sig_blob_matches_loop vm blobs_to_remove public_pair_blobs flags
                strict_encoding sig_blobs' sig_cache (sig_blob_indices ++ [ppb_idx]) ppb_idx
          end
      else Ok sig_blob_indices
  end.

Definition sig_blob_matches (vm : VM) (sig_blobs public_pair_blobs : list blob)
    (flags : Z) : result (list Z) :=
  let strict_encoding := truthy (Z.land flags VERIFY_STRICTENC) in
  sig_blob_matches_loop vm sig_blobs public_pair_blobs flags strict_encoding
    sig_blobs ∅ [] (-1).

(** ** CHECKMULTISIG *)

(** The [for ... else] of [do_OP_CHECKMULTISIG]: [true] when the loop over
    adjacent entries ends without [break]. *)
Fixpoint no_break (sig_blob_indices : list Z) : bool :=
  match sig_blob_indices with
  | a :: (b :: _) as rest => if bool_decide (a >= b) then false else no_break rest
  | _ => true
  end.

(** Truth value of a [bytes] object; also [b != b'']. *)
Definition truthy_bytes (b : blob) : bool :=
  match b with
  | [] => false
  | _ :: _ => true
  end.

Definition do_OP_CHECKMULTISIG : vmM unit := fun vm =>
  let flags := flags vm in
  (key_count ← pop_int;
   add_op_count key_count;;
   lift (raise_if (bool_decide (key_count < 0 ∨ key_count > 20))
                  (ScriptError (Some PUBKEY_COUNT)));;
   public_pair_blobs ← pop_list (Z.to_nat key_count);
   signature_count ← pop_int;
   lift (raise_if (bool_decide (signature_count < 0 ∨ signature_count > key_count))
                  (ScriptError (Some SIG_COUNT)));;
   sig_blobs ← pop_list (Z.to_nat signature_count);
   hack_byte ← pop;
   lift (raise_if (truthy (Z.land flags VERIFY_NULLDUMMY) && truthy_bytes hack_byte)
                  (ScriptError (Some SIG_NULLDUMMY)));;
   sig_blob_indices ← (fun vm => (sig_blob_matches vm sig_blobs public_pair_blobs flags, vm));
   let sig_ok :=
     if bool_decide (-1 ∉ sig_blob_indices)
        && bool_decide (len sig_blob_indices = len sig_blobs)
        && no_break sig_blob_indices
     then VM_TRUE else VM_FALSE in
   lift (raise_if (negb (truthy_bytes sig_ok) && truthy (Z.land flags VERIFY_NULLFAIL)
                   && existsb (fun sig_blob => bool_decide (len sig_blob > 0)) sig_blobs)
                  (ScriptError (Some NULLFAIL)));;
   append sig_ok) vm.

End Checksigops.

(** ** A test double for the collaborators

    The constants of [flags.py] with the values of the Bitcoin reference
    interpreter, the prime of secp256k1, and stand-ins for the primitives
    that are small enough to evaluate: a key blob [[prefix; k]] decodes to
    the point [(k, prefix)], a signature blob [[r; s; hashtype]] decodes to
    [(r, s)], and a signature [(r, s)] is one made by the key [(r, 2)].
    Used to run the opcodes on concrete stacks. *)
Definition stub_sec_to_public_pair (b : blob) (strict : bool) : result (Z * Z) :=
  match b with
  | [prefix; k] => Ok (byte2Z k, byte2Z prefix)
  | _ => Raise EncodingError
  end.

Definition stub_sigdecode_der (b : blob) : result (Z * Z) :=
  match b with
  | [r; s] => Ok (byte2Z r, byte2Z s)
  | _ => Raise UnexpectedDER
  end.

Definition stub_int_from_script_bytes (b : blob) : result Z :=
  match b with
  | [] => Ok 0
  | [n] => Ok (byte2Z n)
  | _ => Raise (ScriptError None)
  end.

Definition stub : Collaborators := {|
  SIGHASH_ALL := 1;
  SIGHASH_SINGLE := 3;
  SIGHASH_ANYONECANPAY := 0x80;
  VERIFY_NULLDUMMY := 2 ^ 4;
  VERIFY_NULLFAIL := 2 ^ 14;
  VERIFY_STRICTENC := 2 ^ 1;
  VERIFY_DERSIG := 2 ^ 2;
  VERIFY_LOW_S := 2 ^ 3;
  VERIFY_WITNESS_PUBKEYTYPE := 2 ^ 15;
  curve_p := 2 ^ 256 - 2 ^ 32 - 977;
  ecdsa_verify := fun public_pair _ sig_pair =>
    Ok (bool_decide (public_pair = (fst sig_pair, 2)));
  possible_public_pairs_for_signature := fun _ sig_pair => Ok [(fst sig_pair, 2)];
  sec_to_public_pair := stub_sec_to_public_pair;
  sigdecode_der := stub_sigdecode_der;
  VM_TRUE := [x01];
  VM_FALSE := [];
  int_from_script_bytes := stub_int_from_script_bytes;
  pop_empty := IndexError;
  signature_for_hash_type_f := fun _ _ _ => Ok 0
|}.

(** The order of the generator of secp256k1
    ([ecdsa.generator_secp256k1.order()]), below the prime [curve_p] of
    [stub]; used in the concrete runs of the low-S check. *)
Definition secp256k1_order : Z :=
  0xFFFFFFFFFFFFFFFFFFFFFFFFFFFFFFFEBAAEDCE6AF48A03BBFD25E8CD0364141.

(** A stand-in for [vm.bool_from_script_bytes]: a blob is true when one of
    its bytes is not zero. *)
Definition stub_bool_from_script_bytes (b : blob) : bool :=
  existsb (fun x => negb (byte2Z x =? 0)) b.

(** ** Vocabulary of the statements *)

(** Entries strictly increasing from left to right. *)
Definition strictly_increasing (l : list Z) : Prop :=
  ∀ i a b, l !! i = Some a → l !! S i = Some b → a < b.

Section Operands.

Context `{C : Collaborators}.

(** The operand stack CHECKMULTISIG pops without raising, top first: the key
    count, the key blobs, the signature count, the signature blobs and the
    dummy item, with both counts in range and the dummy item accepted under
    NULLDUMMY. *)
Definition multisig_operands (vm : VM) (keys sigs st : list blob) : Prop :=
  ∃ kc sc hack_byte,
    stack vm = kc :: keys ++ sc :: sigs ++ hack_byte :: st
    ∧ int_from_script_bytes kc = Ok (len keys) ∧ len keys <= 20
    ∧ int_from_script_bytes sc = Ok (len sigs) ∧ len sigs <= len keys
    ∧ truthy (Z.land (flags vm) VERIFY_NULLDUMMY) && truthy_bytes hack_byte = false.

(** The test [do_OP_CHECKMULTISIG] applies to the matcher's result before it
    sets [sig_ok] to [VM_TRUE]. *)
Definition accepted (sig_blob_indices : list Z) (sig_blobs : list blob) : bool :=
  bool_decide (-1 ∉ sig_blob_indices)
  && bool_decide (len sig_blob_indices = len sig_blobs)
  && no_break sig_blob_indices.

(** [any(len(sig_blob) > 0 for sig_blob in sig_blobs)] *)
Definition any_nonempty (sig_blobs : list blob) : bool :=
  existsb (fun sig_blob => bool_decide (len sig_blob > 0)) sig_blobs.

End Operands.

(** ** The VERIFY opcodes

    [vm.bool_from_script_bytes] is a member of [vm] like the others; it is a
    parameter of the two opcodes that call it. *)
Section Verify.

Context `{C : Collaborators}.
Variable bool_from_script_bytes : blob → bool.

(** The tail both VERIFY opcodes share:
    [v = vm.bool_from_script_bytes(vm.pop()); if not v: raise ...] *)
Definition verify_top : vmM unit :=
  b ← pop;
  lift (raise_if (negb (bool_from_script_bytes b)) (ScriptError (Some VERIFY))).

Definition do_OP_CHECKMULTISIGVERIFY : vmM unit :=
  do_OP_CHECKMULTISIG;; verify_top.

Definition do_OP_CHECKSIGVERIFY : vmM unit :=
  do_OP_CHECKSIG;; verify_top.

End Verify.

(** ** Vocabulary of the further statements *)

(** The content bytes of a DER INTEGER as the validator wants them: at least
    one byte, the first one below 0x80, and a leading zero byte only in front
    of a byte of 0x80 or more. *)
Definition der_integer (content : blob) : bool :=
  match content with
  | [] => false
  | b0 :: rest =>
      (byte2Z b0 <? 0x80)
      && match rest with
         | [] => true
         | b1 :: _ => negb (byte2Z b0 =? 0) || (0x80 <=? byte2Z b1)
         end
  end.

(** A signature blob laid out as
    [0x30 L 0x02 r_len R 0x02 s_len S hashtype], with [L] the total length
    minus three, [R] and [S] well-formed integers of the announced lengths,
    and at most 73 bytes in all. *)
Definition strict_der_shape (sig : blob) : Prop :=
  ∃ (L rl sl h : byte) (R S : blob),
    sig = [x30; L; x02; rl] ++ R ++ [x02; sl] ++ S ++ [h]
    ∧ byte2Z L = len sig - 3
    ∧ byte2Z rl = len R
    ∧ byte2Z sl = len S
    ∧ der_integer R = true
    ∧ der_integer S = true
    ∧ len sig <= 73.

(** A compressed SEC key: 33 bytes, the first one 2 or 3. *)
Definition compressed_key (b : blob) : Prop :=
  len b = 33 ∧ (head b = Some x02 ∨ head b = Some x03).

(** An uncompressed SEC key: 65 bytes, the first one 4. *)
Definition uncompressed_key (b : blob) : Prop :=
  len b = 65 ∧ head b = Some x04.

Section Matching.

Context `{C : Collaborators}.

(** The key blob [k] decodes, in the mode [strict], to a point of [ppp]. *)
Definition key_matches (strict : bool) (ppp : list (Z * Z)) (k : blob) : Prop :=
  ∃ P, sec_to_public_pair k strict = Ok P ∧ P ∈ ppp.

(** The signature blob [s] parses, its digest and candidate points are
    computed, and the key blob [k] decodes to one of the candidates. *)
Definition signed_by (vm : VM) (blobs_to_remove : list blob) (fl : Z)
    (s k : blob) : Prop :=
  ∃ sig_pair signature_type signature_hash ppp,
    parse_signature_blob s fl = Ok (sig_pair, signature_type)
    ∧ signature_for_hash_type_f signature_type blobs_to_remove vm = Ok signature_hash
    ∧ possible_public_pairs_for_signature signature_hash sig_pair = Ok ppp
    ∧ key_matches (truthy (Z.land fl VERIFY_STRICTENC)) ppp k.

End Matching.

(** * Properties *)

(** ** Bytes, indexing and flags *)

Lemma len_iterbytes (b : blob) : len (iterbytes b) = len b.
Proof. unfold len, iterbytes. by rewrite length_map. Qed.

Lemma len_nonneg {A} (l : list A) : 0 <= len l.
Proof. unfold len. lia. Qed.

Lemma len_nil_iff {A} (l : list A) : len l = 0 ↔ l = [].
Proof. destruct l; unfold len; simpl; split; intros; try done; lia. Qed.

Lemma byte2Z_range (b : byte) : 0 <= byte2Z b < 256.
Proof. unfold byte2Z. pose proof (Byte.to_N_bounded b). lia. Qed.

Lemma truthy_true (n : Z) : truthy n = true ↔ n ≠ 0.
Proof. unfold truthy. destruct (Z.eqb_spec n 0); simpl; split; intros; try done. Qed.

Lemma truthy_false (n : Z) : truthy n = false ↔ n = 0.
Proof. unfold truthy. destruct (Z.eqb_spec n 0); simpl; split; intros; try done. Qed.

(** [flags & (a | b | c)] is non-zero exactly when one of the three masks
    meets [flags]. *)
Lemma truthy_land_lor3 (f a b c : Z) :
  truthy (Z.land f (Z.lor (Z.lor a b) c))
  = truthy (Z.land f a) || truthy (Z.land f b) || truthy (Z.land f c).
Proof.
  rewrite !Z.land_lor_distr_r. unfold truthy.
  destruct (Z.eqb_spec (Z.land f a) 0) as [Ha|Ha];
  destruct (Z.eqb_spec (Z.land f b) 0) as [Hb|Hb];
  destruct (Z.eqb_spec (Z.land f c) 0) as [Hc|Hc]; simpl;
  match goal with
  | |- negb (?x =? 0) = false => destruct (Z.eqb_spec x 0) as [|Hn]; [done|];
      exfalso; apply Hn; rewrite Ha, Hb, Hc; reflexivity
  | |- negb (?x =? 0) = true => destruct (Z.eqb_spec x 0) as [Hz|]; [|done];
      exfalso; apply Z.lor_eq_0_iff in Hz as [Hz ?];
      try apply Z.lor_eq_0_iff in Hz as [? ?]; congruence
  end.
Qed.

(** ** Strict DER: the size check *)

Lemma _check_valid_signature_1_size (sig : list Z) :
  len sig < 9 ∨ len sig > 73 →
  _check_valid_signature_1 sig = Raise (ScriptError (Some SIG_DER)).
Proof.
  intros H. unfold _check_valid_signature_1.
  by rewrite (bool_decide_eq_true_2 _ H).
Qed.

(** C4: a byte sequence whose length, trailing hash-type byte included, is
    below 9 or above 73 is rejected by the strict-DER validation with a
    script error carrying [SIG_DER]. *)
Theorem check_valid_signature_size (sig : blob) :
  len sig < 9 ∨ len sig > 73 →
  check_valid_signature sig = Raise (ScriptError (Some SIG_DER)).
Proof.
  intros H. unfold check_valid_signature.
  rewrite _check_valid_signature_1_size; [done|].
  by rewrite len_iterbytes.
Qed.

Section Properties.

Context `{C : Collaborators}.

(** ** Low-S *)

(** The check as the code performs it, against the constant [curve_p] it
    reads as [ecdsa.generator_secp256k1.curve().p()]: a pair [(r, s)] is
    accepted exactly when [s <= curve_p - s], that is when [s] is at most
    half of [curve_p]; otherwise a script error with [SIG_HIGH_S] is raised;
    for [s] above that half, [(r, curve_p - s)] is accepted. *)
Lemma check_low_der_signature_low_s (r s : Z) :
  (check_low_der_signature (r, s) = Ok tt ↔ s <= curve_p - s)
  ∧ (s <= curve_p - s ↔ s <= curve_p / 2)
  ∧ (check_low_der_signature (r, s) ≠ Ok tt →
     check_low_der_signature (r, s) = Raise (ScriptError (Some SIG_HIGH_S)))
  ∧ (s > curve_p / 2 → check_low_der_signature (r, curve_p - s) = Ok tt).
Proof.
  assert (curve_p = 2 * (curve_p / 2) + curve_p mod 2) as Hdiv
    by (apply Z.div_mod; lia).
  assert (0 <= curve_p mod 2 < 2) as Hmod by (apply Z.mod_pos_bound; lia).
  unfold check_low_der_signature, raise_if.
  repeat split; repeat case_bool_decide; intros; try done; try lia.
Qed.

(** C2: the constant the low-S check compares with is the one read as
    [curve().p()], the prime of the field, not the order of the curve.  For
    an order at least 2 below that constant, [s = order / 2 + 1] lies above
    half the order ([s > order - s]) and the check accepts it instead of
    raising [SIG_HIGH_S]. *)
Theorem check_low_der_signature_accepts_high_s (order r : Z) :
  order + 2 <= curve_p →
  let s := order / 2 + 1 in
  s > order - s
  ∧ check_low_der_signature (r, s) = Ok tt
  ∧ check_low_der_signature (r, s) ≠ Raise (ScriptError (Some SIG_HIGH_S)).
Proof.
  intros Hp s.
  assert (order = 2 * (order / 2) + order mod 2) as Hdiv
    by (apply Z.div_mod; lia).
  assert (0 <= order mod 2 < 2) as Hmod by (apply Z.mod_pos_bound; lia).
  assert (check_low_der_signature (r, s) = Ok tt) as Hok.
  { unfold check_low_der_signature, raise_if.
    rewrite bool_decide_eq_false_2; [done|]. subst s. lia. }
  split; [subst s; lia|]. split; [done|]. by rewrite Hok.
Qed.

(** ** Hash type *)

Lemma index_last {A} (l : list A) :
  index l (-1) = match last l with Some x => Ok x | None => Raise IndexError end.
Proof.
  unfold index. rewrite (bool_decide_eq_true_2 (-1 < 0)) by lia.
  destruct l as [|a l] using rev_ind.
  - reflexivity.
  - rewrite last_snoc. unfold len. rewrite length_app. simpl length.
    rewrite bool_decide_eq_false_2 by lia.
    replace (Z.to_nat (-1 + Z.of_nat (length l + 1))) with (length l) by lia.
    by rewrite list_lookup_middle.
Qed.

Lemma last_iterbytes (b : blob) : last (iterbytes b) = byte2Z <$> last b.
Proof.
  unfold iterbytes. induction b as [|x [|y b] IH]; try reflexivity.
  exact IH.
Qed.

(** On a blob with last byte [b] the validator strips the ANYONECANPAY bit
    and accepts exactly the values of [[SIGHASH_ALL, SIGHASH_SINGLE]]; every
    rejection of such a blob carries [SIG_HASHTYPE]. *)
Lemma check_defined_hashtype_signature_last (sig : blob) (b : byte) :
  last sig = Some b →
  let hash_type := Z.land (byte2Z b) (Z.lnot SIGHASH_ANYONECANPAY) in
  (check_defined_hashtype_signature sig = Ok tt
   ↔ SIGHASH_ALL <= hash_type <= SIGHASH_SINGLE)
  ∧ (check_defined_hashtype_signature sig ≠ Ok tt →
     check_defined_hashtype_signature sig = Raise (ScriptError (Some SIG_HASHTYPE))).
Proof.
  intros Hl hash_type. unfold check_defined_hashtype_signature, indexbytes.
  assert (len sig ≠ 0) as Hne.
  { rewrite len_nil_iff. intros ->. done. }
  rewrite (bool_decide_eq_false_2 _ Hne). simpl.
  rewrite index_last, last_iterbytes, Hl. simpl.
  fold hash_type. unfold raise_if.
  case_bool_decide; split; try split; intros; try done; lia.
Qed.

(** C3: on the empty blob the hash-type validator raises a script error that
    carries no error code, not [SIG_HASHTYPE]. *)
Theorem check_defined_hashtype_signature_empty :
  check_defined_hashtype_signature [] = Raise (ScriptError None)
  ∧ check_defined_hashtype_signature [] ≠ Raise (ScriptError (Some SIG_HASHTYPE)).
Proof. split; [reflexivity | discriminate]. Qed.

(** ** The signature-blob parser *)

Lemma ord_last_nonempty (sig_blob : blob) :
  sig_blob ≠ [] →
  ∃ b, last sig_blob = Some b ∧ ord_last sig_blob = Ok (byte2Z b).
Proof.
  intros Hne. unfold ord_last. rewrite last_iterbytes.
  destruct (last sig_blob) as [b|] eqn:Hl.
  - by exists b.
  - apply last_None in Hl. done.
Qed.

Lemma parse_signature_blob_empty (flags : Z) :
  parse_signature_blob [] flags = Raise ValueError.
Proof. reflexivity. Qed.

(** C5: on a non-empty blob the parser runs the structure validation only
    under STRICTENC, DERSIG or LOW_S, the hash-type validation only under
    STRICTENC and the low-S check only under LOW_S: a validator whose flag is
    clear has no say in the outcome.  The DER decode is not gated by any
    flag.  The first failure in the order structure, hash type, decode,
    low-S is the one raised; with none, the decoded pair and the last byte
    are returned. *)
Theorem parse_signature_blob_pipeline (sig_blob : blob) (flags : Z) :
  sig_blob ≠ [] →
  let strictenc := truthy (Z.land flags VERIFY_STRICTENC) in
  let dersig := truthy (Z.land flags VERIFY_DERSIG) in
  let low_s := truthy (Z.land flags VERIFY_LOW_S) in
  let structure_passes :=
    (strictenc = false ∧ dersig = false ∧ low_s = false)
    ∨ check_valid_signature sig_blob = Ok tt in
  let hashtype_passes :=
    strictenc = false ∨ check_defined_hashtype_signature sig_blob = Ok tt in
  (∀ e, strictenc = true ∨ dersig = true ∨ low_s = true →
        check_valid_signature sig_blob = Raise e →
        parse_signature_blob sig_blob flags = Raise e)
  ∧ (∀ e, structure_passes → strictenc = true →
          check_defined_hashtype_signature sig_blob = Raise e →
          parse_signature_blob sig_blob flags = Raise e)
  ∧ (∀ e, structure_passes → hashtype_passes →
          sigdecode_der (all_but_last sig_blob) = Raise e →
          parse_signature_blob sig_blob flags = Raise e)
  ∧ (∀ sig_pair e, structure_passes → hashtype_passes →
          sigdecode_der (all_but_last sig_blob) = Ok sig_pair →
          low_s = true → check_low_der_signature sig_pair = Raise e →
          parse_signature_blob sig_blob flags = Raise e)
  ∧ (∀ sig_pair, structure_passes → hashtype_passes →
          sigdecode_der (all_but_last sig_blob) = Ok sig_pair →
          low_s = false ∨ check_low_der_signature sig_pair = Ok tt →
          ∃ b, last sig_blob = Some b
               ∧ parse_signature_blob sig_blob flags = Ok (sig_pair, byte2Z b)).
Proof.
  intros Hne strictenc dersig low_s structure_passes hashtype_passes.
  destruct (ord_last_nonempty sig_blob Hne) as (b & Hlast & Hord).
  assert (len sig_blob ≠ 0) as Hlen by (by rewrite len_nil_iff).
  unfold parse_signature_blob.
  rewrite (bool_decide_eq_false_2 _ Hlen), truthy_land_lor3, Hord.
  subst structure_passes hashtype_passes.
  fold strictenc dersig low_s.
  destruct strictenc, dersig, low_s;
    destruct (check_valid_signature sig_blob) as [[]|e1];
    destruct (check_defined_hashtype_signature sig_blob) as [[]|e2];
    destruct (sigdecode_der (all_but_last sig_blob)) as [p|e3]; simpl;
    repeat split; intros;
    repeat match goal with
           | H : _ ∨ _ |- _ => destruct H
           | H : _ ∧ _ |- _ => destruct H
           end;
    simplify_eq; try done; eauto;
    try (match goal with H : check_low_der_signature _ = _ |- _ => rewrite H end;
         simpl; eauto).
Qed.

(** ** CHECKSIG *)

Lemma when_passes (c : bool) (body : result unit) :
  c = false ∨ body = Ok tt → when c body = Ok tt.
Proof. intros [-> | H]; [done | destruct c; simpl; done]. Qed.

Lemma check_public_key_encoding_verdict (b : blob) :
  check_public_key_encoding b = Ok tt
  ∨ check_public_key_encoding b = Raise (ScriptError (Some PUBKEYTYPE)).
Proof.
  unfold check_public_key_encoding, byte2int, index.
  case_bool_decide as Hlb; [|by right].
  rewrite (bool_decide_eq_false_2 (0 < 0)) by lia.
  rewrite (bool_decide_eq_false_2 (0 < 0)) by lia.
  destruct b as [|x b]; [unfold len in Hlb; simpl in Hlb; lia|]. simpl.
  repeat case_bool_decide; auto.
Qed.

(** With the two operands on the stack the [try] block pops them and then
    runs without touching [vm]. *)
Lemma do_OP_CHECKSIG_try_stack (fl : Z) (vm : VM) (pair_blob sig_blob : blob)
    (st : list blob) :
  stack vm = pair_blob :: sig_blob :: st →
  do_OP_CHECKSIG_try fl vm =
    (let verify_strict := truthy (Z.land fl VERIFY_STRICTENC) in
     when verify_strict (check_public_key_encoding pair_blob);;
     when (truthy (Z.land fl VERIFY_WITNESS_PUBKEYTYPE))
          (check_witness_pubkeytype pair_blob);;
     '(sig_pair, signature_type) ← parse_signature_blob sig_blob fl;
     public_pair ← sec_to_public_pair pair_blob verify_strict;
     mret (sig_blob, sig_pair, signature_type, public_pair),
     mkVM st (op_count vm) (flags vm)).
Proof.
  intros Hst. unfold do_OP_CHECKSIG_try, pop, lift, mbind, vmM_bind, result_bind,
    mret, vmM_ret, result_ret.
  rewrite Hst. simpl.
  destruct (when _ (check_public_key_encoding pair_blob)) as [[]|]; [|done].
  destruct (when _ (check_witness_pubkeytype pair_blob)) as [[]|]; [|done].
  destruct (parse_signature_blob sig_blob fl) as [[sig_pair signature_type]|]; [|done].
  by destruct (sec_to_public_pair pair_blob _).
Qed.

(** C6, as the code has it: under STRICTENC a badly encoded key raises
    [PUBKEYTYPE] at once.  Once the key checks are passed, a failure of the
    parse-and-decode step raised as [ValueError], [UnexpectedDER] or
    [EncodingError] pushes [VM_FALSE] and returns normally, while a script
    error raised by the validators inside the parser propagates. *)
Theorem do_OP_CHECKSIG_failures (vm : VM) (pair_blob sig_blob : blob) (st : list blob) :
  stack vm = pair_blob :: sig_blob :: st →
  let strict := truthy (Z.land (flags vm) VERIFY_STRICTENC) in
  let popped := mkVM st (op_count vm) (flags vm) in
  let key_checks_pass :=
    (strict = false ∨ check_public_key_encoding pair_blob = Ok tt)
    ∧ (truthy (Z.land (flags vm) VERIFY_WITNESS_PUBKEYTYPE) = false
       ∨ check_witness_pubkeytype pair_blob = Ok tt) in
  (strict = true → check_public_key_encoding pair_blob ≠ Ok tt →
   do_OP_CHECKSIG vm = (Raise (ScriptError (Some PUBKEYTYPE)), popped))
  ∧ (∀ e, key_checks_pass → checksig_caught e = true →
          parse_signature_blob sig_blob (flags vm) = Raise e
          ∨ ((∃ r, parse_signature_blob sig_blob (flags vm) = Ok r)
             ∧ sec_to_public_pair pair_blob strict = Raise e) →
          do_OP_CHECKSIG vm = (Ok tt, mkVM (VM_FALSE :: st) (op_count vm) (flags vm)))
  ∧ (∀ code, key_checks_pass →
          parse_signature_blob sig_blob (flags vm) = Raise (ScriptError code) →
          do_OP_CHECKSIG vm = (Raise (ScriptError code), popped)).
Proof.
  intros Hst strict popped key_checks_pass.
  unfold do_OP_CHECKSIG. rewrite (do_OP_CHECKSIG_try_stack _ _ _ _ _ Hst).
  subst key_checks_pass. fold strict. cbv zeta.
  repeat split.
  - intros Hs Hbad. rewrite Hs. simpl.
    destruct (check_public_key_encoding_verdict pair_blob) as [|Hr]; [done|].
    by rewrite Hr.
  - intros e [Hk Hw] He Hfail.
    rewrite (when_passes _ _ Hk), (when_passes _ _ Hw).
    simpl. destruct Hfail as [-> | [[[sp ty] ->] ->]]; simpl; by rewrite He.
  - intros code [Hk Hw] Hfail.
    rewrite (when_passes _ _ Hk), (when_passes _ _ Hw).
    simpl. by rewrite Hfail.
Qed.

(** ** NULLFAIL in CHECKSIG *)

Lemma do_OP_CHECKSIG_nullfail (vm : VM) (pair_blob sig_blob : blob) (st : list blob)
    (sig_pair public_pair : Z * Z) (signature_type signature_hash : Z) :
  stack vm = pair_blob :: sig_blob :: st →
  truthy (Z.land (flags vm) VERIFY_NULLFAIL) = true →
  let strict := truthy (Z.land (flags vm) VERIFY_STRICTENC) in
  let popped := mkVM st (op_count vm) (flags vm) in
  when strict (check_public_key_encoding pair_blob) = Ok tt →
  when (truthy (Z.land (flags vm) VERIFY_WITNESS_PUBKEYTYPE))
       (check_witness_pubkeytype pair_blob) = Ok tt →
  parse_signature_blob sig_blob (flags vm) = Ok (sig_pair, signature_type) →
  sec_to_public_pair pair_blob strict = Ok public_pair →
  signature_for_hash_type_f signature_type [sig_blob] popped = Ok signature_hash →
  ecdsa_verify public_pair signature_hash sig_pair = Ok false →
  sig_blob ≠ []
  ∧ do_OP_CHECKSIG vm = (Raise (ScriptError (Some NULLFAIL)), popped).
Proof.
  intros Hst Hnf strict popped Hk Hw Hp Hs Hh Hv.
  assert (sig_blob ≠ []) as Hne.
  { intros ->. by rewrite parse_signature_blob_empty in Hp. }
  split; [done|].
  unfold do_OP_CHECKSIG. rewrite (do_OP_CHECKSIG_try_stack _ _ _ _ _ Hst).
  fold strict. cbv zeta. rewrite Hk, Hw, Hp. simpl. rewrite Hs. simpl.
  fold popped. rewrite Hh, Hv, Hnf. simpl.
  rewrite bool_decide_eq_true_2; [done|].
  pose proof (len_nonneg sig_blob). pose proof (len_nil_iff sig_blob). 
  destruct (decide (len sig_blob = 0)); [tauto | lia].
Qed.

Lemma do_OP_CHECKSIG_empty_sig (vm : VM) (pair_blob : blob) (st : list blob) :
  stack vm = pair_blob :: [] :: st →
  let strict := truthy (Z.land (flags vm) VERIFY_STRICTENC) in
  when strict (check_public_key_encoding pair_blob) = Ok tt →
  when (truthy (Z.land (flags vm) VERIFY_WITNESS_PUBKEYTYPE))
       (check_witness_pubkeytype pair_blob) = Ok tt →
  do_OP_CHECKSIG vm = (Ok tt, mkVM (VM_FALSE :: st) (op_count vm) (flags vm)).
Proof.
  intros Hst strict Hk Hw.
  unfold do_OP_CHECKSIG. rewrite (do_OP_CHECKSIG_try_stack _ _ _ _ _ Hst).
  fold strict. cbv zeta. by rewrite Hk, Hw.
Qed.

(** ** CHECKMULTISIG: popping the operands *)

Lemma pop_list_app (bs st : list blob) (n f : Z) :
  pop_list (length bs) (mkVM (bs ++ st) n f) = (Ok bs, mkVM st n f).
Proof.
  induction bs as [|b bs IH]; [done|].
  simpl. unfold mbind, vmM_bind, pop at 1. simpl. by rewrite IH.
Qed.

Lemma vm_bind_ok {A B} (m : vmM A) (f : A → vmM B) (vm vm' : VM) (a : A) :
  m vm = (Ok a, vm') → (m ≫= f) vm = f a vm'.
Proof. intros H. unfold mbind, vmM_bind. by rewrite H. Qed.

Lemma pop_int_ok (vm : VM) (b : blob) (st : list blob) (n : Z) :
  stack vm = b :: st → int_from_script_bytes b = Ok n →
  pop_int vm = (Ok n, mkVM st (op_count vm) (flags vm)).
Proof.
  intros Hst Hn. unfold pop_int, mbind, vmM_bind, pop, lift.
  by rewrite Hst, Hn.
Qed.

Ltac vm_step tac := erewrite vm_bind_ok by tac; cbv beta.

Lemma to_nat_len {A} (l : list A) : Z.to_nat (len l) = length l.
Proof. unfold len. lia. Qed.

(** With its operands on the stack, CHECKMULTISIG charges the key count to
    [op_count], pops everything, runs the matcher and ends on the verdict. *)
Lemma do_OP_CHECKMULTISIG_operands (vm : VM) (keys sigs st : list blob) :
  multisig_operands vm keys sigs st →
  let vm1 := mkVM st (op_count vm + len keys) (flags vm) in
  do_OP_CHECKMULTISIG vm =
    match sig_blob_matches vm1 sigs keys (flags vm) with
    | Raise e => (Raise e, vm1)
    | Ok sig_blob_indices =>
        let sig_ok := if accepted sig_blob_indices sigs then VM_TRUE else VM_FALSE in
        if negb (truthy_bytes sig_ok) && truthy (Z.land (flags vm) VERIFY_NULLFAIL)
           && any_nonempty sigs
        then (Raise (ScriptError (Some NULLFAIL)), vm1)
        else (Ok tt, mkVM (sig_ok :: st) (op_count vm + len keys) (flags vm))
    end.
Proof.
  intros (kc & sc & hack_byte & Hst & Hkc & Hk20 & Hsc & Hsk & Hnd) vm1.
  pose proof (len_nonneg keys). pose proof (len_nonneg sigs).
  destruct vm as [stk n f]. simpl in *. subst stk.
  unfold do_OP_CHECKMULTISIG. cbn [flags].
  vm_step ltac:(eapply pop_int_ok; [reflexivity | exact Hkc]).
  vm_step ltac:(reflexivity).
  rewrite (bool_decide_eq_false_2 (len keys < 0 ∨ len keys > 20)) by lia.
  vm_step ltac:(reflexivity).
  vm_step ltac:(cbn [stack op_count flags]; rewrite to_nat_len; apply pop_list_app).
  vm_step ltac:(eapply pop_int_ok; [reflexivity | exact Hsc]).
  rewrite (bool_decide_eq_false_2 (len sigs < 0 ∨ len sigs > len keys)) by lia.
  vm_step ltac:(reflexivity).
  vm_step ltac:(cbn [stack op_count flags]; rewrite to_nat_len; apply pop_list_app).
  vm_step ltac:(reflexivity).
  rewrite Hnd.
  vm_step ltac:(reflexivity).
  cbn [stack op_count flags]. fold vm1.
  unfold mbind at 1, vmM_bind at 1.
  destruct (sig_blob_matches vm1 sigs keys f) as [idx|e]; [|done].
  unfold mbind, vmM_bind, lift, append, accepted, any_nonempty, raise_if. cbv zeta.
  by destruct (_ && _ && existsb _ _).
Qed.

(** C10: CHECKMULTISIG adds the popped key count to [vm.op_count] before it
    checks the range of the count, so on the [PUBKEY_COUNT] error the counter
    is already changed. *)
Theorem do_OP_CHECKMULTISIG_key_count_out_of_range (vm : VM) (kc : blob)
    (st : list blob) (key_count : Z) :
  stack vm = kc :: st →
  int_from_script_bytes kc = Ok key_count →
  key_count < 0 ∨ key_count > 20 →
  do_OP_CHECKMULTISIG vm
  = (Raise (ScriptError (Some PUBKEY_COUNT)),
     mkVM st (op_count vm + key_count) (flags vm))
  ∧ op_count vm + key_count ≠ op_count vm.
Proof.
  intros Hst Hkc Hrange. split; [|lia].
  unfold do_OP_CHECKMULTISIG.
  vm_step ltac:(eapply pop_int_ok; [exact Hst | exact Hkc]).
  vm_step ltac:(reflexivity).
  rewrite (bool_decide_eq_true_2 _ Hrange).
  reflexivity.
Qed.

(** ** CHECKMULTISIG: the verdict *)

Lemma strictly_increasing_cons (a b : Z) (l : list Z) :
  strictly_increasing (a :: b :: l) ↔ a < b ∧ strictly_increasing (b :: l).
Proof.
  unfold strictly_increasing. split.
  - intros H. split.
    + by apply (H 0%nat).
    + intros i x y Hx Hy. by apply (H (S i)).
  - intros [Hab H] [|i] x y Hx Hy; simpl in *.
    + by simplify_eq.
    + by apply (H i).
Qed.

Lemma no_break_spec (l : list Z) : no_break l = true ↔ strictly_increasing l.
Proof.
  induction l as [|a [|b l] IH].
  - split; [|done]. by intros _ i a b Ha.
  - split; [|done]. by intros _ [|i] x y Hx Hy.
  - rewrite strictly_increasing_cons, <- IH.
    change (no_break (a :: b :: l))
      with (if bool_decide (a >= b) then false else no_break (b :: l)).
    case_bool_decide; split; intros; try done; try lia.
    + split; [lia | done].
    + tauto.
Qed.

Lemma accepted_spec (sig_blob_indices : list Z) (sig_blobs : list blob) :
  accepted sig_blob_indices sig_blobs = true
  ↔ (-1 ∉ sig_blob_indices)
    ∧ length sig_blob_indices = length sig_blobs
    ∧ strictly_increasing sig_blob_indices.
Proof.
  unfold accepted. rewrite !andb_true_iff, !bool_decide_eq_true, no_break_spec.
  unfold len. split; intros [[? ?] ?] || intros (? & ? & ?); repeat split; try done; lia.
Qed.

Lemma any_nonempty_spec (sig_blobs : list blob) :
  any_nonempty sig_blobs = true ↔ ∃ b, b ∈ sig_blobs ∧ b ≠ [].
Proof.
  unfold any_nonempty. rewrite existsb_exists.
  split; intros (b & Hin & Hb); exists b.
  - apply list_elem_of_In in Hin. split; [done|].
    apply bool_decide_eq_true in Hb. intros ->. unfold len in Hb. simpl in Hb. lia.
  - apply list_elem_of_In in Hin. split; [done|].
    apply bool_decide_eq_true. destruct b; [done|]. unfold len. simpl. lia.
Qed.

(** C8: once the operands are popped and the matcher has returned its index
    sequence, CHECKMULTISIG pushes [VM_TRUE] exactly when the sequence has no
    [-1], has as many entries as there are signature blobs and is strictly
    increasing; otherwise it pushes [VM_FALSE], unless NULLFAIL is set and a
    signature blob is non-empty, where it raises [NULLFAIL]. *)
Theorem do_OP_CHECKMULTISIG_verdict (vm : VM) (keys sigs st : list blob)
    (sig_blob_indices : list Z) :
  truthy_bytes VM_TRUE = true →
  truthy_bytes VM_FALSE = false →
  multisig_operands vm keys sigs st →
  let vm1 := mkVM st (op_count vm + len keys) (flags vm) in
  sig_blob_matches vm1 sigs keys (flags vm) = Ok sig_blob_indices →
  let all_three :=
    (-1 ∉ sig_blob_indices)
    ∧ length sig_blob_indices = length sigs
    ∧ strictly_increasing sig_blob_indices in
  (do_OP_CHECKMULTISIG vm
   = (Ok tt, mkVM (VM_TRUE :: st) (op_count vm + len keys) (flags vm))
   ↔ all_three)
  ∧ (¬ all_three →
     do_OP_CHECKMULTISIG vm
     = if truthy (Z.land (flags vm) VERIFY_NULLFAIL) && any_nonempty sigs
       then (Raise (ScriptError (Some NULLFAIL)), vm1)
       else (Ok tt, mkVM (VM_FALSE :: st) (op_count vm + len keys) (flags vm))).
Proof.
  intros Ht Hf Hops vm1 Hm all_three.
  rewrite (do_OP_CHECKMULTISIG_operands _ _ _ _ Hops). fold vm1. rewrite Hm.
  subst all_three. rewrite <- accepted_spec. cbv zeta.
  destruct (accepted sig_blob_indices sigs).
  - rewrite Ht. simpl. split; [done|]. intros Hn. by destruct Hn.
  - rewrite Hf. simpl. split.
    + split; [|done].
      destruct (_ && _); intros Heq; [done|].
      injection Heq as Heq. rewrite <- Heq in Ht. by rewrite Hf in Ht.
    + intros _. by destruct (_ && _).
Qed.

(** ** NULLFAIL *)

(** An empty blob at the head of the signature list makes the matcher stop
    on a single [-1]. *)
Lemma sig_blob_matches_empty_head (vm : VM) (sigs keys : list blob) (fl : Z) :
  len ([] :: sigs) <= len keys →
  sig_blob_matches vm ([] :: sigs) keys fl = Ok [-1].
Proof.
  intros Hle. unfold sig_blob_matches.
  cbn [sig_blob_matches_loop].
  rewrite (bool_decide_eq_true_2 _ Hle).
  rewrite (bool_decide_eq_false_2 (-1 ∈ [])) by (by intros ?%elem_of_nil).
  rewrite parse_signature_blob_empty. simpl app.
  destruct sigs as [|s sigs]; [done|].
  cbn [sig_blob_matches_loop].
  rewrite (bool_decide_eq_true_2 (-1 ∈ [-1])) by (apply list_elem_of_here).
  by case_bool_decide.
Qed.

(** C7: under NULLFAIL a failed check with a non-empty signature blob is a
    hard [NULLFAIL] error, in CHECKSIG when the ECDSA verification of the
    (then non-empty) blob fails, in CHECKMULTISIG when the match fails and
    some blob is non-empty; with empty blobs in their place both opcodes push
    [VM_FALSE] and return normally. *)
Theorem nullfail_escalation (vm : VM) :
  truthy (Z.land (flags vm) VERIFY_NULLFAIL) = true →
  truthy_bytes VM_FALSE = false →
  let strict := truthy (Z.land (flags vm) VERIFY_STRICTENC) in
  let witness := truthy (Z.land (flags vm) VERIFY_WITNESS_PUBKEYTYPE) in
  (∀ pair_blob sig_blob st sig_pair public_pair signature_type signature_hash,
     stack vm = pair_blob :: sig_blob :: st →
     when strict (check_public_key_encoding pair_blob) = Ok tt →
     when witness (check_witness_pubkeytype pair_blob) = Ok tt →
     parse_signature_blob sig_blob (flags vm) = Ok (sig_pair, signature_type) →
     sec_to_public_pair pair_blob strict = Ok public_pair →
     signature_for_hash_type_f signature_type [sig_blob]
       (mkVM st (op_count vm) (flags vm)) = Ok signature_hash →
     ecdsa_verify public_pair signature_hash sig_pair = Ok false →
     sig_blob ≠ []
     ∧ do_OP_CHECKSIG vm
       = (Raise (ScriptError (Some NULLFAIL)), mkVM st (op_count vm) (flags vm)))
  ∧ (∀ pair_blob st,
     stack vm = pair_blob :: [] :: st →
     when strict (check_public_key_encoding pair_blob) = Ok tt →
     when witness (check_witness_pubkeytype pair_blob) = Ok tt →
     do_OP_CHECKSIG vm = (Ok tt, mkVM (VM_FALSE :: st) (op_count vm) (flags vm)))
  ∧ (∀ keys sigs st sig_blob_indices,
     multisig_operands vm keys sigs st →
     sig_blob_matches (mkVM st (op_count vm + len keys) (flags vm)) sigs keys (flags vm)
     = Ok sig_blob_indices →
     ¬ ((-1 ∉ sig_blob_indices)
        ∧ length sig_blob_indices = length sigs
        ∧ strictly_increasing sig_blob_indices) →
     (∃ b, b ∈ sigs ∧ b ≠ []) →
     do_OP_CHECKMULTISIG vm
     = (Raise (ScriptError (Some NULLFAIL)),
        mkVM st (op_count vm + len keys) (flags vm)))
  ∧ (∀ keys sigs st,
     multisig_operands vm keys sigs st →
     sigs ≠ [] →
     (∀ b, b ∈ sigs → b = []) →
     do_OP_CHECKMULTISIG vm
     = (Ok tt, mkVM (VM_FALSE :: st) (op_count vm + len keys) (flags vm))).
Proof.
  intros Hnf Hf strict witness. split; [|split; [|split]].
  - intros pair_blob sig_blob st sig_pair public_pair signature_type signature_hash.
    intros. by apply (do_OP_CHECKSIG_nullfail vm pair_blob sig_blob st sig_pair
                        public_pair signature_type signature_hash).
  - intros pair_blob st ? ? ?. by apply (do_OP_CHECKSIG_empty_sig vm pair_blob st).
  - intros keys sigs st idx Hops Hm Hfail Hne.
    rewrite (do_OP_CHECKMULTISIG_operands _ _ _ _ Hops), Hm. cbv zeta.
    rewrite <- accepted_spec in Hfail.
    destruct (accepted idx sigs); [done|].
    apply any_nonempty_spec in Hne. by rewrite Hf, Hnf, Hne.
  - intros keys sigs st Hops Hne Hall.
    rewrite (do_OP_CHECKMULTISIG_operands _ _ _ _ Hops). cbv zeta.
    destruct Hops as (kc & sc & hack_byte & _ & _ & _ & _ & Hle & _).
    destruct sigs as [|s sigs]; [done|].
    assert (s = []) as -> by apply Hall, list_elem_of_here.
    rewrite sig_blob_matches_empty_head by done.
    assert (any_nonempty ([] :: sigs) = false) as Hany.
    { destruct (any_nonempty ([] :: sigs)) eqn:Hany; [|done].
      apply any_nonempty_spec in Hany as (b & Hin & Hb).
      by apply Hall in Hin. }
    rewrite Hany.
    rewrite andb_false_r.
    assert (accepted [-1] ([] :: sigs) = false) as ->; [|done].
    unfold accepted. rewrite (bool_decide_eq_false_2 (-1 ∉ [-1])); [done|].
    intros Hn. apply Hn, list_elem_of_here.
Qed.

(** ** The matcher: indices only grow *)

Lemma find_public_pair_unfold (public_pair_blobs : list blob) (ppp : list (Z * Z))
    (signature_count : Z) (strict_encoding : bool) (w ppb_idx : Z) :
  find_public_pair public_pair_blobs ppp signature_count strict_encoding w ppb_idx
  = if bool_decide (len public_pair_blobs > signature_count) then
      match public_pair_blobs with
      | [] => Raise IndexError
      | public_pair_blob :: public_pair_blobs' =>
          when strict_encoding (check_public_key_encoding public_pair_blob);;
          when (truthy w) (check_witness_pubkeytype public_pair_blob);;
          public_pair ←
            match sec_to_public_pair public_pair_blob strict_encoding with
            | Ok p => Ok (Some p)
            | Raise EncodingError => Ok None
            | Raise e => Raise e
            end;
          if public_pair_in public_pair ppp then Ok (ppb_idx + 1)
          else find_public_pair public_pair_blobs' ppp signature_count
                                strict_encoding w (ppb_idx + 1)
      end
    else Ok (-1).
Proof. by destruct public_pair_blobs. Qed.

Lemma find_public_pair_result (public_pair_blobs : list blob) (ppp : list (Z * Z))
    (signature_count : Z) (strict_encoding : bool) (w ppb_idx r : Z) :
  find_public_pair public_pair_blobs ppp signature_count strict_encoding w ppb_idx = Ok r →
  r = -1 ∨ r > ppb_idx.
Proof.
  revert ppb_idx.
  induction public_pair_blobs as [|k ks IH]; intros ppb_idx;
    rewrite find_public_pair_unfold; case_bool_decide; try done;
    try (intros [= <-]; by left).
  destruct (when strict_encoding _) as [[]|]; [|done].
  destruct (when (truthy w) _) as [[]|]; [|done].
  unfold mbind, result_bind.
  destruct (sec_to_public_pair k strict_encoding) as [p|[]]; try done.
  - destruct (public_pair_in (Some p) ppp).
    + intros [= <-]. right. lia.
    + intros Hr. apply IH in Hr. lia.
  - destruct (public_pair_in None ppp).
    + intros [= <-]. right. lia.
    + intros Hr. apply IH in Hr. lia.
Qed.

Lemma strictly_increasing_snoc (l : list Z) (r : Z) :
  strictly_increasing l → (∀ x, x ∈ l → x < r) → strictly_increasing (l ++ [r]).
Proof.
  intros Hl Hr i a b Ha Hb.
  destruct (decide (S i < length l)%nat) as [Hlt|Hge].
  - rewrite lookup_app_l in Ha by lia. rewrite lookup_app_l in Hb by lia.
    by apply (Hl i).
  - apply lookup_lt_Some in Hb as Hb'. rewrite length_app in Hb'. simpl in Hb'.
    assert (S i = length l) as Hi by lia.
    rewrite lookup_app_l in Ha by lia.
    rewrite Hi, list_lookup_middle in Hb by done.
    injection Hb as <-. apply Hr. by eapply list_elem_of_lookup_2.
Qed.

(** The loop invariant: as long as no [-1] has been recorded, the recorded
    indices increase strictly and none exceeds the cursor [ppb_idx]. *)
Lemma sig_blob_matches_loop_increasing (vm : VM) (blobs_to_remove keys : list blob)
    (fl : Z) (strict_encoding : bool) (sigs : list blob) :
  ∀ (sig_cache : gmap Z Z) (indices : list Z) (ppb_idx : Z) (result : list Z),
    (-1 ∉ indices → strictly_increasing indices ∧ ∀ x, x ∈ indices → x <= ppb_idx) →
    sig_blob_matches_loop vm blobs_to_remove keys fl strict_encoding sigs
      sig_cache indices ppb_idx = Ok result →
    -1 ∉ result → strictly_increasing result.
Proof.
  induction sigs as [|sig_blob sigs IH]; intros sig_cache indices ppb_idx result Hinv.
  - intros [= <-] Hno. by apply Hinv.
  - cbn [sig_blob_matches_loop].
    case_bool_decide; [|intros [= <-] Hno; by apply Hinv].
    case_bool_decide; [intros [= <-] Hno; by apply Hinv|].
    assert (-1 ∉ indices ++ [-1] →
            strictly_increasing (indices ++ [-1])
            ∧ ∀ x, x ∈ indices ++ [-1] → x <= ppb_idx) as Hminus.
    { intros Hn. exfalso. apply Hn. apply elem_of_app. right. apply list_elem_of_here. }
    destruct (parse_signature_blob sig_blob fl) as [[sig_pair signature_type]|[]];
      try done; try (by apply IH).
    unfold mbind, result_bind.
    destruct (match sig_cache !! signature_type with
              | Some h => Ok (h, sig_cache)
              | None => _
              end) as [[signature_hash sig_cache']|]; [|done].
    destruct (match possible_public_pairs_for_signature signature_hash sig_pair with
              | Ok l => Ok l
              | Raise e => _
              end) as [ppp|]; [|done].
    destruct (find_public_pair keys ppp (len sigs) strict_encoding _ ppb_idx)
      as [r|] eqn:Hfind; [|done].
    apply IH. intros Hn.
    apply not_elem_of_app in Hn as [Hn1 Hn2].
    apply not_elem_of_cons in Hn2 as [Hr _].
    destruct (Hinv Hn1) as [Hsi Hle].
    apply find_public_pair_result in Hfind as [Hfind|Hfind]; [congruence|].
    split.
    + apply strictly_increasing_snoc; [done|].
      intros x Hx. apply Hle in Hx. lia.
    + intros x [Hx|Hx]%elem_of_app.
      * apply Hle in Hx. lia.
      * apply list_elem_of_singleton in Hx. lia.
Qed.

(** C9: whenever [find_public_pair] returns, the value is [-1] or strictly
    above the [ppb_idx] it was given; hence an index sequence returned by
    [sig_blob_matches] that has no [-1] is strictly increasing, and the
    re-check of CHECKMULTISIG over adjacent entries passes on it. *)
Theorem find_public_pair_advances :
  (∀ public_pair_blobs ppp signature_count strict_encoding w ppb_idx r,
     find_public_pair public_pair_blobs ppp signature_count strict_encoding w ppb_idx
     = Ok r →
     r = -1 ∨ r > ppb_idx)
  ∧ (∀ vm sig_blobs public_pair_blobs fl sig_blob_indices,
     sig_blob_matches vm sig_blobs public_pair_blobs fl = Ok sig_blob_indices →
     -1 ∉ sig_blob_indices →
     strictly_increasing sig_blob_indices ∧ no_break sig_blob_indices = true).
Proof.
  split.
  - intros *. apply find_public_pair_result.
  - intros vm sigs keys fl idx Hm Hno.
    assert (strictly_increasing idx) as Hsi.
    { unfold sig_blob_matches in Hm.
      eapply sig_blob_matches_loop_increasing; [|exact Hm|exact Hno].
      intros _. split; [by intros i a b Ha | by intros x Hx%elem_of_nil]. }
    split; [done | by apply no_break_spec].
Qed.

(** ** The matcher: every scan restarts at the first key *)

(** One round of the key scan when no key check is switched on and the key
    decodes. *)
Lemma find_public_pair_step (k : blob) (ks : list blob) (ppp : list (Z * Z))
    (signature_count w ppb_idx : Z) (P : Z * Z) :
  len (k :: ks) > signature_count →
  truthy w = false →
  sec_to_public_pair k false = Ok P →
  find_public_pair (k :: ks) ppp signature_count false w ppb_idx
  = if bool_decide (P ∈ ppp) then Ok (ppb_idx + 1)
    else find_public_pair ks ppp signature_count false w (ppb_idx + 1).
Proof.
  intros Hlen Hw HP. rewrite find_public_pair_unfold.
  by rewrite (bool_decide_eq_true_2 _ Hlen), Hw, HP.
Qed.

(** C1: with keys [k0; k1; k2] and the signatures given as [s1; s0], where
    [s1] is valid for [k1] only and [s0] for [k0] (matching them needs the
    key index to go down from 1 to 0), the matcher returns [1; 2]: the scan
    for [s0] starts again at [k0] and counts on from the cursor.
    CHECKMULTISIG then pushes [VM_TRUE]. *)
Theorem sig_blob_matches_rescans_keys (vm : VM) (k0 k1 k2 s0 s1 : blob)
    (st : list blob) (P0 P1 p0 p1 : Z * Z) (t0 t1 h0 h1 : Z) (l0 l1 : list (Z * Z)) :
  let fl := flags vm in
  let sigs := [s1; s0] in
  let keys := [k0; k1; k2] in
  let vm1 := mkVM st (op_count vm + len keys) fl in
  truthy_bytes VM_TRUE = true →
  multisig_operands vm keys sigs st →
  truthy (Z.land fl VERIFY_STRICTENC) = false →
  truthy (Z.land fl VERIFY_WITNESS_PUBKEYTYPE) = false →
  parse_signature_blob s1 fl = Ok (p1, t1) →
  parse_signature_blob s0 fl = Ok (p0, t0) →
  signature_for_hash_type_f t1 sigs vm1 = Ok h1 →
  signature_for_hash_type_f t0 sigs vm1 = Ok h0 →
  possible_public_pairs_for_signature h1 p1 = Ok l1 →
  possible_public_pairs_for_signature h0 p0 = Ok l0 →
  sec_to_public_pair k0 false = Ok P0 →
  sec_to_public_pair k1 false = Ok P1 →
  P0 ∉ l1 → P1 ∈ l1 → P0 ∈ l0 →
  sig_blob_matches vm1 sigs keys fl = Ok [1; 2]
  ∧ do_OP_CHECKMULTISIG vm
    = (Ok tt, mkVM (VM_TRUE :: st) (op_count vm + len keys) fl).
Proof.
  intros fl sigs keys vm1 Ht Hops Hstrict Hw Hp1 Hp0 Hh1 Hh0 Hl1 Hl0 HP0 HP1
    Hnot1 Hin1 Hin0.
  assert (sig_blob_matches vm1 sigs keys fl = Ok [1; 2]) as Hm.
  { unfold sig_blob_matches. rewrite Hstrict. subst sigs keys.
    cbn [sig_blob_matches_loop].
    rewrite (bool_decide_eq_true_2 (len [s1; s0] <= len [k0; k1; k2])) by (by compute).
    rewrite (bool_decide_eq_false_2 (-1 ∈ [])) by (by intros ?%elem_of_nil).
    rewrite Hp1, lookup_empty. unfold mbind at 1 2, result_bind at 1 2.
    rewrite Hh1. unfold mbind at 1, result_bind at 1. rewrite Hl1.
    rewrite (find_public_pair_step _ _ _ _ _ _ P0) by (done || by compute).
    rewrite (bool_decide_eq_false_2 _ Hnot1).
    rewrite (find_public_pair_step _ _ _ _ _ _ P1) by (done || by compute).
    rewrite (bool_decide_eq_true_2 _ Hin1).
    unfold mbind at 1, result_bind at 1.
    rewrite (bool_decide_eq_true_2 (len [s0] <= len [k0; k1; k2])) by (by compute).
    rewrite (bool_decide_eq_false_2 (-1 ∈ [] ++ [-1 + 1 + 1]))
      by (intros Hx; apply list_elem_of_singleton in Hx; lia).
    rewrite Hp0.
    assert (match <[t1:=h1]> (∅ : gmap Z Z) !! t0 with
            | Some h => Ok (h, <[t1:=h1]> (∅ : gmap Z Z))
            | None =>
                h ← signature_for_hash_type_f t0 [s1; s0] vm1;
                Ok (h, <[t0:=h]> (<[t1:=h1]> (∅ : gmap Z Z)))
            end = Ok (h0, if decide (t0 = t1) then <[t1:=h1]> (∅ : gmap Z Z)
                          else <[t0:=h0]> (<[t1:=h1]> (∅ : gmap Z Z)))) as ->.
    { destruct (decide (t0 = t1)) as [->|Hne].
      - rewrite lookup_insert_eq. congruence.
      - rewrite lookup_insert_ne, lookup_empty by done. by rewrite Hh0. }
    unfold mbind at 1 2, result_bind at 1 2. rewrite Hl0.
    rewrite (find_public_pair_step _ _ _ _ _ _ P0) by (done || by compute).
    rewrite (bool_decide_eq_true_2 _ Hin0).
    reflexivity. }
  split; [done|].
  rewrite (do_OP_CHECKMULTISIG_operands _ _ _ _ Hops). fold fl vm1. rewrite Hm.
  cbv zeta.
  assert (accepted [1; 2] sigs = true) as -> by (by vm_compute).
  by rewrite Ht.
Qed.

End Properties.

(** * Concrete runs

    The theorems instantiated on the test double [stub]. *)

Lemma check_valid_signature_size_witness :
  (len [x30; x06] < 9 ∨ len [x30; x06] > 73)
  ∧ check_valid_signature [x30; x06] = Raise (ScriptError (Some SIG_DER)).
Proof.
  split.
  - left. unfold len. simpl. lia.
  - apply (check_valid_signature_size [x30; x06]). left. unfold len. simpl. lia.
Defined.

(** [s = 5] is low; [s = curve_p - 5] is high and its complement is
    accepted. *)
Lemma check_low_der_signature_low_s_witness :
  @check_low_der_signature stub (1, 5) = Ok tt
  ∧ @check_low_der_signature stub (1, @curve_p stub - 5)
    = Raise (ScriptError (Some SIG_HIGH_S))
  ∧ @check_low_der_signature stub (1, @curve_p stub - (@curve_p stub - 5)) = Ok tt.
Proof.
  split; [|split].
  - apply (@check_low_der_signature_low_s stub 1 5). vm_compute. discriminate.
  - apply (@check_low_der_signature_low_s stub 1 (@curve_p stub - 5)).
    vm_compute. discriminate.
  - apply (@check_low_der_signature_low_s stub 1 (@curve_p stub - 5)).
    vm_compute. reflexivity.
Defined.

(** On secp256k1 the order is below the prime: [s = order / 2 + 1] is a
    high S and is accepted. *)
Lemma check_low_der_signature_accepts_high_s_witness :
  secp256k1_order + 2 <= @curve_p stub
  ∧ secp256k1_order / 2 + 1 > secp256k1_order - (secp256k1_order / 2 + 1)
  ∧ @check_low_der_signature stub (1, secp256k1_order / 2 + 1) = Ok tt.
Proof.
  assert (secp256k1_order + 2 <= @curve_p stub) as Hp by (by vm_compute).
  split; [exact Hp|].
  destruct (@check_low_der_signature_accepts_high_s stub secp256k1_order 1 Hp)
    as (Hhigh & Hok & _).
  split; [exact Hhigh | exact Hok].
Defined.

(** No flag set: a blob the structure validation would reject is decoded all
    the same. *)
Lemma parse_signature_blob_pipeline_witness :
  [x07; x05; x01] ≠ []
  ∧ check_valid_signature [x07; x05; x01] = Raise (ScriptError (Some SIG_DER))
  ∧ ∃ b, last [x07; x05; x01] = Some b
         ∧ @parse_signature_blob stub [x07; x05; x01] 0 = Ok ((7, 5), byte2Z b).
Proof.
  split; [discriminate|]. split; [reflexivity|].
  destruct (@parse_signature_blob_pipeline stub [x07; x05; x01] 0) as (_ & _ & _ & _ & H).
  - discriminate.
  - apply (H (7, 5)).
    + left. repeat split; reflexivity.
    + left. reflexivity.
    + reflexivity.
    + left. reflexivity.
Defined.

(** C6 as stated fails: with DERSIG set, a one-byte signature blob fails the
    structure validation inside the parser, and CHECKSIG raises [SIG_DER]
    instead of pushing [VM_FALSE]. *)
Lemma do_OP_CHECKSIG_malformed_der_raises :
  @parse_signature_blob stub [x00] (@VERIFY_DERSIG stub)
  = Raise (ScriptError (Some SIG_DER))
  ∧ @do_OP_CHECKSIG stub (mkVM [[x02; x00]; [x00]] 0 (@VERIFY_DERSIG stub))
    = (Raise (ScriptError (Some SIG_DER)), mkVM [] 0 (@VERIFY_DERSIG stub))
  ∧ @do_OP_CHECKSIG stub (mkVM [[x02; x00]; [x00]] 0 (@VERIFY_DERSIG stub))
    ≠ (Ok tt, mkVM [@VM_FALSE stub] 0 (@VERIFY_DERSIG stub)).
Proof. split; [|split]; [by vm_compute | by vm_compute | by vm_compute]. Qed.

(** An empty signature blob and a blob the decoder refuses both soft-fail. *)
Lemma do_OP_CHECKSIG_failures_witness :
  @do_OP_CHECKSIG stub (mkVM [[x02; x00]; []] 0 0) = (Ok tt, mkVM [@VM_FALSE stub] 0 0)
  ∧ @do_OP_CHECKSIG stub (mkVM [[x02; x00]; [x00]] 0 0)
    = (Ok tt, mkVM [@VM_FALSE stub] 0 0).
Proof.
  split.
  - destruct (@do_OP_CHECKSIG_failures stub (mkVM [[x02; x00]; []] 0 0)
                [x02; x00] [] [] eq_refl) as (_ & H & _).
    apply (H ValueError).
    + split; left; reflexivity.
    + reflexivity.
    + left. reflexivity.
  - destruct (@do_OP_CHECKSIG_failures stub (mkVM [[x02; x00]; [x00]] 0 0)
                [x02; x00] [x00] [] eq_refl) as (_ & H & _).
    apply (H UnexpectedDER).
    + split; left; reflexivity.
    + reflexivity.
    + left. reflexivity.
Defined.

(** NULLFAIL set, one key, one signature: a garbage blob [[x09]] raises
    [NULLFAIL], the empty blob pushes [VM_FALSE]. *)
Lemma nullfail_escalation_witness :
  @do_OP_CHECKMULTISIG stub
     (mkVM [[x01]; [x02; x00]; [x01]; [x09]; []] 0 (@VERIFY_NULLFAIL stub))
  = (Raise (ScriptError (Some NULLFAIL)), mkVM [] 1 (@VERIFY_NULLFAIL stub))
  ∧ @do_OP_CHECKMULTISIG stub
      (mkVM [[x01]; [x02; x00]; [x01]; []; []] 0 (@VERIFY_NULLFAIL stub))
    = (Ok tt, mkVM [@VM_FALSE stub] 1 (@VERIFY_NULLFAIL stub)).
Proof.
  split.
  - destruct (@nullfail_escalation stub
                (mkVM [[x01]; [x02; x00]; [x01]; [x09]; []] 0 (@VERIFY_NULLFAIL stub))
                eq_refl eq_refl) as (_ & _ & H & _).
    apply (H [[x02; x00]] [[x09]] [] [-1]).
    + exists [x01], [x01], []. repeat split; try reflexivity; by vm_compute.
    + reflexivity.
    + intros [Hno _]. apply Hno. apply list_elem_of_here.
    + exists [x09]. split; [apply list_elem_of_here | discriminate].
  - destruct (@nullfail_escalation stub
                (mkVM [[x01]; [x02; x00]; [x01]; []; []] 0 (@VERIFY_NULLFAIL stub))
                eq_refl eq_refl) as (_ & _ & _ & H).
    apply (H [[x02; x00]] [[]] []).
    + exists [x01], [x01], []. repeat split; try reflexivity; by vm_compute.
    + discriminate.
    + intros b Hb. by apply list_elem_of_singleton in Hb.
Defined.

(** Two keys, one signature made by the second key, empty dummy: the matcher
    returns [1] and CHECKMULTISIG pushes [VM_TRUE]. *)
Lemma do_OP_CHECKMULTISIG_verdict_witness :
  @sig_blob_matches stub (mkVM [] 2 0) [[x01; x05; x01]] [[x02; x00]; [x02; x01]] 0
  = Ok [1]
  ∧ @do_OP_CHECKMULTISIG stub
      (mkVM [[x02]; [x02; x00]; [x02; x01]; [x01]; [x01; x05; x01]; []] 0 0)
    = (Ok tt, mkVM [@VM_TRUE stub] 2 0).
Proof.
  split; [reflexivity|].
  destruct (@do_OP_CHECKMULTISIG_verdict stub
              (mkVM [[x02]; [x02; x00]; [x02; x01]; [x01]; [x01; x05; x01]; []] 0 0)
              [[x02; x00]; [x02; x01]] [[x01; x05; x01]] [] [1] eq_refl eq_refl)
    as [H _].
  - exists [x02], [x01], []. repeat split; try reflexivity; by vm_compute.
  - reflexivity.
  - apply H. repeat split.
    + intros Hx. apply list_elem_of_singleton in Hx. discriminate.
    + by intros [|i] a b Ha Hb.
Defined.

Lemma find_public_pair_advances_witness :
  @find_public_pair stub [[x02; x00]; [x02; x01]] [(1, 2)] 0 false 0 (-1) = Ok 1
  ∧ (1 = -1 ∨ 1 > -1)
  ∧ strictly_increasing [1; 2].
Proof.
  split; [reflexivity|].
  destruct (@find_public_pair_advances stub) as [H1 H2]. split.
  - apply (H1 [[x02; x00]; [x02; x01]] [(1, 2)] 0 false 0 (-1) 1). reflexivity.
  - apply (H2 (mkVM [] 0 0) [[x01; x05; x01]; [x00; x05; x01]]
              [[x02; x00]; [x02; x01]; [x02; x02]] 0 [1; 2]).
    + reflexivity.
    + intros Hx. apply elem_of_cons in Hx as [Hx|Hx]; [discriminate|].
      apply list_elem_of_singleton in Hx. discriminate.
Defined.

(** A key count of 21: the error is raised with [op_count] already at 21. *)
Lemma do_OP_CHECKMULTISIG_key_count_out_of_range_witness :
  @do_OP_CHECKMULTISIG stub (mkVM [[x15]; []] 0 0)
  = (Raise (ScriptError (Some PUBKEY_COUNT)), mkVM [[]] 21 0)
  ∧ 0 + 21 ≠ 0.
Proof.
  apply (@do_OP_CHECKMULTISIG_key_count_out_of_range stub
           (mkVM [[x15]; []] 0 0) [x15] [[]] 21).
  - reflexivity.
  - reflexivity.
  - right. lia.
Defined.

(** Three keys; [s1] made by the key at index 1 is given before [s0] made by
    the key at index 0: the matcher answers [1; 2] and CHECKMULTISIG pushes
    [VM_TRUE]. *)
Lemma sig_blob_matches_rescans_keys_witness :
  @sig_blob_matches stub (mkVM [] 3 0) [[x01; x05; x01]; [x00; x05; x01]]
     [[x02; x00]; [x02; x01]; [x02; x02]] 0 = Ok [1; 2]
  ∧ @do_OP_CHECKMULTISIG stub
      (mkVM [[x03]; [x02; x00]; [x02; x01]; [x02; x02];
             [x02]; [x01; x05; x01]; [x00; x05; x01]; []] 0 0)
    = (Ok tt, mkVM [@VM_TRUE stub] 3 0).
Proof.
  apply (@sig_blob_matches_rescans_keys stub
           (mkVM [[x03]; [x02; x00]; [x02; x01]; [x02; x02];
                  [x02]; [x01; x05; x01]; [x00; x05; x01]; []] 0 0)
           [x02; x00] [x02; x01] [x02; x02] [x00; x05; x01] [x01; x05; x01] []
           (0, 2) (1, 2) (0, 5) (1, 5) 1 1 0 0 [(0, 2)] [(1, 2)]).
  - reflexivity.
  - exists [x03], [x02], []. repeat split; try reflexivity; by vm_compute.
  - reflexivity.
  - reflexivity.
  - reflexivity.
  - reflexivity.
  - reflexivity.
  - reflexivity.
  - reflexivity.
  - reflexivity.
  - reflexivity.
  - reflexivity.
  - intros Hx. apply list_elem_of_singleton in Hx. discriminate.
  - apply list_elem_of_here.
  - apply list_elem_of_here.
Defined.

(** The same signature given twice satisfies a 2-of-2 check: the key at
    index 0 serves both. *)
Example duplicate_signature_accepted :
  @sig_blob_matches stub (mkVM [] 2 0) [[x00; x05; x01]; [x00; x05; x01]]
     [[x02; x00]; [x02; x01]] 0 = Ok [0; 1]
  ∧ @do_OP_CHECKMULTISIG stub
      (mkVM [[x02]; [x02; x00]; [x02; x01];
             [x02]; [x00; x05; x01]; [x00; x05; x01]; []] 0 0)
    = (Ok tt, mkVM [@VM_TRUE stub] 2 0).
Proof. split; reflexivity. Qed.

(** With the constants of [stub] the hash-type validator accepts exactly the
    six bytes 1, 2, 3, 0x81, 0x82, 0x83. *)
Lemma check_defined_hashtype_signature_accepts (sig : blob) (b : byte) :
  last sig = Some b →
  @check_defined_hashtype_signature stub sig = Ok tt
  ↔ byte2Z b ∈ [1; 2; 3; 0x81; 0x82; 0x83].
Proof.
  intros Hl.
  destruct (@check_defined_hashtype_signature_last stub sig b Hl) as [-> _].
  destruct b; vm_compute; split; intros H;
    try (destruct H as [H1 H2]; exfalso; (by apply H1) || (by apply H2));
    try (split; discriminate);
    try (repeat (apply elem_of_cons in H as [H|H]; [discriminate|]);
         by apply elem_of_nil in H);
    repeat (first [apply list_elem_of_here | apply list_elem_of_further]).
Qed.

(** * Further properties *)

(** ** Bytes *)

Lemma byte2Z_inj (a b : byte) : byte2Z a = byte2Z b → a = b.
Proof.
  unfold byte2Z. intros H. apply N2Z.inj in H.
  pose proof (Byte.of_to_N a) as Ha. pose proof (Byte.of_to_N b) as Hb.
  rewrite H in Ha. congruence.
Qed.

Lemma index_nonneg {A} (l : list A) (i : Z) :
  0 <= i →
  index l i = match l !! Z.to_nat i with Some x => Ok x | None => Raise IndexError end.
Proof.
  intros Hi. unfold index.
  rewrite (bool_decide_eq_false_2 (i < 0)) by lia.
  by rewrite (bool_decide_eq_false_2 (i < 0)) by lia.
Qed.

Lemma byte2int_head (b : blob) :
  byte2int b = match head b with Some x => Ok (byte2Z x) | None => Raise IndexError end.
Proof. unfold byte2int. rewrite index_nonneg by lia. by destruct b. Qed.

Section FurtherProperties.

Context `{C : Collaborators}.

(** ** Public-key encodings *)

Lemma Some_byte_eq (x y : byte) : Some x = Some y ↔ byte2Z x = byte2Z y.
Proof. split; [by intros [= ->] | intros ?%byte2Z_inj; by subst]. Qed.

Lemma check_public_key_encoding_iff (b : blob) :
  check_public_key_encoding b = Ok tt ↔ uncompressed_key b ∨ compressed_key b.
Proof.
  unfold check_public_key_encoding, uncompressed_key, compressed_key.
  rewrite byte2int_head.
  destruct b as [|x b].
  - rewrite bool_decide_eq_false_2 by (unfold len; simpl; lia).
    split; [done|]. intros [[? ?]|[? ?]]; unfold len in *; simpl in *; lia.
  - cbn [head mbind result_bind]. rewrite !Some_byte_eq.
    change (byte2Z x04) with 4. change (byte2Z x02) with 2. change (byte2Z x03) with 3.
    repeat case_bool_decide; split; intros Hx; try done; lia.
Qed.

Lemma check_witness_pubkeytype_iff (b : blob) :
  check_witness_pubkeytype b = Ok tt ↔ compressed_key b.
Proof.
  unfold check_witness_pubkeytype, compressed_key. rewrite byte2int_head.
  destruct b as [|x b].
  - split; [done|]. intros [_ [?|?]]; done.
  - cbn [head mbind result_bind]. rewrite !Some_byte_eq.
    change (byte2Z x02) with 2. change (byte2Z x03) with 3.
    unfold raise_if. repeat case_bool_decide; simpl; split; intros Hx; try done; lia.
Qed.

(** X1: [check_public_key_encoding] accepts exactly the uncompressed keys
    (65 bytes starting with 4) and the compressed keys (33 bytes starting
    with 2 or 3); every other blob, the empty one included, is rejected with
    [PUBKEYTYPE]. *)
Theorem check_public_key_encoding_shapes (b : blob) :
  (check_public_key_encoding b = Ok tt ↔ uncompressed_key b ∨ compressed_key b)
  ∧ (¬ (uncompressed_key b ∨ compressed_key b) →
     check_public_key_encoding b = Raise (ScriptError (Some PUBKEYTYPE))).
Proof.
  split; [apply check_public_key_encoding_iff|].
  intros Hn. destruct (check_public_key_encoding_verdict b) as [Hok|Hr]; [|done].
  by apply check_public_key_encoding_iff in Hok.
Qed.

(** X2: the witness key check accepts exactly the compressed keys; a
    non-empty blob of any other shape is rejected with [WITNESS_PUBKEYTYPE];
    and whatever the witness check accepts, [check_public_key_encoding]
    accepts too. *)
Theorem check_witness_pubkeytype_compressed (b : blob) :
  (check_witness_pubkeytype b = Ok tt ↔ compressed_key b)
  ∧ (b ≠ [] → ¬ compressed_key b →
     check_witness_pubkeytype b = Raise (ScriptError (Some WITNESS_PUBKEYTYPE)))
  ∧ (check_witness_pubkeytype b = Ok tt → check_public_key_encoding b = Ok tt).
Proof.
  split; [apply check_witness_pubkeytype_iff|]. split.
  - intros Hne Hn. rewrite <- check_witness_pubkeytype_iff in Hn.
    unfold check_witness_pubkeytype in *. rewrite byte2int_head in *.
    destruct b as [|x b]; [done|]. cbn [head mbind result_bind] in *.
    unfold raise_if in *. by destruct (_ || _).
  - intros Hok. apply check_witness_pubkeytype_iff in Hok.
    apply check_public_key_encoding_iff. by right.
Qed.

(** ** Hash types *)

Lemma hash_type_values (b : byte) :
  1 <= Z.land (byte2Z b) (Z.lnot 0x80) <= 3
  ↔ byte2Z b ∈ [1; 2; 3; 0x81; 0x82; 0x83].
Proof.
  destruct b; vm_compute; split; intros H;
    try (destruct H as [H1 H2]; exfalso; (by apply H1) || (by apply H2));
    try (split; discriminate);
    try (repeat (apply elem_of_cons in H as [H|H]; [discriminate|]);
         by apply elem_of_nil in H);
    repeat (first [apply list_elem_of_here | apply list_elem_of_further]).
Qed.

(** X3: with ALL = 1, SINGLE = 3 and ANYONECANPAY = 0x80, the hash-type
    validator accepts a non-empty blob exactly when its last byte is one of
    1, 2, 3, 0x81, 0x82, 0x83, and rejects it with [SIG_HASHTYPE] for each of
    the other 250 byte values. *)
Theorem check_defined_hashtype_signature_defined (sig : blob) (b : byte) :
  SIGHASH_ALL = 1 → SIGHASH_SINGLE = 3 → SIGHASH_ANYONECANPAY = 0x80 →
  last sig = Some b →
  (check_defined_hashtype_signature sig = Ok tt
   ↔ byte2Z b ∈ [1; 2; 3; 0x81; 0x82; 0x83])
  ∧ (byte2Z b ∉ [1; 2; 3; 0x81; 0x82; 0x83] →
     check_defined_hashtype_signature sig = Raise (ScriptError (Some SIG_HASHTYPE))).
Proof.
  intros Hall Hsingle Hacp Hl.
  destruct (check_defined_hashtype_signature_last sig b Hl) as [Hiff Hrej].
  rewrite Hall, Hsingle, Hacp, hash_type_values in Hiff.
  split; [done|]. intros Hn. apply Hrej. by rewrite Hiff.
Qed.

(** ** What a parsed signature blob guarantees *)

Lemma check_valid_signature_ok_size (sig : blob) :
  check_valid_signature sig = Ok tt → 9 <= len sig <= 73.
Proof.
  intros Hok.
  destruct (decide (len sig < 9 ∨ len sig > 73)) as [Hbad|Hgood]; [|lia].
  unfold check_valid_signature in Hok.
  rewrite _check_valid_signature_1_size in Hok by (by rewrite len_iterbytes).
  done.
Qed.

(** X4: when [parse_signature_blob] returns [((r, s), t)], the pair is what
    the DER decoder made of the blob without its last byte and [t] is that
    last byte; if one of DERSIG, LOW_S, STRICTENC is set the blob passed the
    strict-DER validation and has 9 to 73 bytes; under STRICTENC [t] is a
    defined hash type; under LOW_S [s <= curve_p - s]. *)
Theorem parse_signature_blob_returns (sig_blob : blob) (fl r s t : Z) :
  parse_signature_blob sig_blob fl = Ok ((r, s), t) →
  sigdecode_der (all_but_last sig_blob) = Ok (r, s)
  ∧ (∃ b, last sig_blob = Some b ∧ t = byte2Z b)
  ∧ (truthy (Z.land fl VERIFY_DERSIG) = true
     ∨ truthy (Z.land fl VERIFY_LOW_S) = true
     ∨ truthy (Z.land fl VERIFY_STRICTENC) = true →
     check_valid_signature sig_blob = Ok tt ∧ 9 <= len sig_blob <= 73)
  ∧ (truthy (Z.land fl VERIFY_STRICTENC) = true →
     SIGHASH_ALL <= Z.land t (Z.lnot SIGHASH_ANYONECANPAY) <= SIGHASH_SINGLE)
  ∧ (truthy (Z.land fl VERIFY_LOW_S) = true → s <= curve_p - s).
Proof.
  intros Hp.
  destruct (decide (sig_blob = [])) as [->|Hne]; [done|].
  destruct (ord_last_nonempty sig_blob Hne) as (b & Hlast & Hord).
  assert (len sig_blob ≠ 0) as Hlen by (by rewrite len_nil_iff).
  unfold parse_signature_blob in Hp.
  rewrite (bool_decide_eq_false_2 _ Hlen), truthy_land_lor3, Hord in Hp.
  destruct (check_defined_hashtype_signature_last sig_blob b Hlast) as [Hht _].
  cbv zeta in Hht.
  destruct (truthy (Z.land fl VERIFY_DERSIG)),
           (truthy (Z.land fl VERIFY_LOW_S)),
           (truthy (Z.land fl VERIFY_STRICTENC));
    destruct (check_valid_signature sig_blob) as [[]|] eqn:Hcvs;
    destruct (check_defined_hashtype_signature sig_blob) as [[]|] eqn:Hcd;
    destruct (sigdecode_der (all_but_last sig_blob)) as [[r' s']|] eqn:Hdec;
    cbn [mbind result_bind when mret result_ret] in Hp; try done;
    try (destruct (check_low_der_signature (r', s')) as [[]|] eqn:Hlow;
         cbn [mbind result_bind when mret result_ret] in Hp; try done);
    injection Hp as -> -> <-;
    (split; [done|]); (split; [by exists b|]);
    (split; [intros Hfl; (destruct Hfl as [?|[?|?]]; try done);
             (split; [done | by apply check_valid_signature_ok_size])|]);
    (split; [intros ?; try done; by apply Hht|]);
    intros ?; try done;
    unfold check_low_der_signature, raise_if in Hlow;
    (case_bool_decide; [done | lia]).
Qed.

(** ** CHECKSIG: stack effect and verdict *)

Lemma do_OP_CHECKSIG_effect (vm vm' : VM) (pair_blob sig_blob : blob)
    (st : list blob) (r : result unit) :
  stack vm = pair_blob :: sig_blob :: st →
  do_OP_CHECKSIG vm = (r, vm') →
  op_count vm' = op_count vm
  ∧ flags vm' = flags vm
  ∧ match r with
    | Ok _ => stack vm' = VM_TRUE :: st ∨ stack vm' = VM_FALSE :: st
    | Raise _ => stack vm' = st
    end.
Proof.
  intros Hst. unfold do_OP_CHECKSIG.
  rewrite (do_OP_CHECKSIG_try_stack _ _ _ _ _ Hst). cbv zeta.
  destruct (_ ≫= _) as [[[[sb sp] ty] pub]|e].
  - destruct (signature_for_hash_type_f ty [sb] _) as [h|e].
    + destruct (ecdsa_verify pub h sp) as [[|]|e];
        [intros [= <- <-]; simpl; auto| |intros [= <- <-]; simpl; auto].
      destruct (_ && _); intros [= <- <-]; simpl; auto.
    + intros [= <- <-]; simpl; auto.
  - destruct (checksig_caught e); intros [= <- <-]; simpl; auto.
Qed.

(** X5: on a stack holding the two operands CHECKSIG pops both whatever
    happens next; when it returns normally exactly one item, [VM_TRUE] or
    [VM_FALSE], lies on top of the rest of the stack; when it raises, the
    rest of the stack is what remains.  [op_count] and [flags] are never
    changed. *)
Theorem do_OP_CHECKSIG_stack_effect (vm vm' : VM) (pair_blob sig_blob : blob)
    (st : list blob) (r : result unit) :
  stack vm = pair_blob :: sig_blob :: st →
  do_OP_CHECKSIG vm = (r, vm') →
  op_count vm' = op_count vm
  ∧ flags vm' = flags vm
  ∧ match r with
    | Ok _ => stack vm' = VM_TRUE :: st ∨ stack vm' = VM_FALSE :: st
    | Raise _ => stack vm' = st
    end.
Proof. apply do_OP_CHECKSIG_effect. Qed.

(** X6: CHECKSIG pushes [VM_TRUE] exactly when the key checks switched on by
    the flags pass, the signature blob parses, the key blob decodes, the
    digest is computed, and the ECDSA verification of the decoded pair
    against the decoded key succeeds. *)
Theorem do_OP_CHECKSIG_true_iff (vm : VM) (pair_blob sig_blob : blob) (st : list blob) :
  stack vm = pair_blob :: sig_blob :: st →
  VM_TRUE ≠ VM_FALSE →
  let strict := truthy (Z.land (flags vm) VERIFY_STRICTENC) in
  let witness := truthy (Z.land (flags vm) VERIFY_WITNESS_PUBKEYTYPE) in
  let popped := mkVM st (op_count vm) (flags vm) in
  do_OP_CHECKSIG vm = (Ok tt, mkVM (VM_TRUE :: st) (op_count vm) (flags vm))
  ↔ when strict (check_public_key_encoding pair_blob) = Ok tt
    ∧ when witness (check_witness_pubkeytype pair_blob) = Ok tt
    ∧ ∃ sig_pair signature_type public_pair signature_hash,
        parse_signature_blob sig_blob (flags vm) = Ok (sig_pair, signature_type)
        ∧ sec_to_public_pair pair_blob strict = Ok public_pair
        ∧ signature_for_hash_type_f signature_type [sig_blob] popped = Ok signature_hash
        ∧ ecdsa_verify public_pair signature_hash sig_pair = Ok true.
Proof.
  intros Hst Hne strict witness popped. unfold do_OP_CHECKSIG.
  rewrite (do_OP_CHECKSIG_try_stack _ _ _ _ _ Hst). fold strict witness popped.
  cbv zeta. split.
  - destruct (when strict _) as [[]|e1]; cbn [mbind result_bind];
      [|destruct (checksig_caught e1); intros [= ?]; done].
    destruct (when witness _) as [[]|e2]; cbn [mbind result_bind];
      [|destruct (checksig_caught e2); intros [= ?]; done].
    destruct (parse_signature_blob sig_blob (flags vm)) as [[sp ty]|e3];
      cbn [mbind result_bind];
      [|destruct (checksig_caught e3); intros [= ?]; done].
    destruct (sec_to_public_pair pair_blob strict) as [pub|e4];
      cbn [mbind result_bind mret result_ret];
      [|destruct (checksig_caught e4); intros [= ?]; done].
    destruct (signature_for_hash_type_f ty [sig_blob] popped) as [h|e5] eqn:Hh;
      [|done].
    destruct (ecdsa_verify pub h sp) as [[|]|e6] eqn:Hv; [| |done].
    + intros _. do 2 (split; [done|]). by exists sp, ty, pub, h.
    + destruct (_ && _); intros [= ?]; done.
  - intros (-> & -> & sp & ty & pub & h & -> & -> & Hh & Hv).
    cbn [mbind result_bind mret result_ret]. by rewrite Hh, Hv.
Qed.

(** X7: without NULLFAIL a signature that parses but fails the ECDSA
    verification is a soft failure: CHECKSIG pushes [VM_FALSE] and returns
    normally. *)
Theorem do_OP_CHECKSIG_verify_fails_softly (vm : VM) (pair_blob sig_blob : blob)
    (st : list blob) (sig_pair public_pair : Z * Z) (signature_type signature_hash : Z) :
  stack vm = pair_blob :: sig_blob :: st →
  truthy (Z.land (flags vm) VERIFY_NULLFAIL) = false →
  let strict := truthy (Z.land (flags vm) VERIFY_STRICTENC) in
  let popped := mkVM st (op_count vm) (flags vm) in
  when strict (check_public_key_encoding pair_blob) = Ok tt →
  when (truthy (Z.land (flags vm) VERIFY_WITNESS_PUBKEYTYPE))
       (check_witness_pubkeytype pair_blob) = Ok tt →
  parse_signature_blob sig_blob (flags vm) = Ok (sig_pair, signature_type) →
  sec_to_public_pair pair_blob strict = Ok public_pair →
  signature_for_hash_type_f signature_type [sig_blob] popped = Ok signature_hash →
  ecdsa_verify public_pair signature_hash sig_pair = Ok false →
  do_OP_CHECKSIG vm = (Ok tt, mkVM (VM_FALSE :: st) (op_count vm) (flags vm)).
Proof.
  intros Hst Hnf strict popped Hk Hw Hp Hs Hh Hv.
  unfold do_OP_CHECKSIG. rewrite (do_OP_CHECKSIG_try_stack _ _ _ _ _ Hst).
  fold strict. cbv zeta. rewrite Hk, Hw, Hp. cbn [mbind result_bind].
  rewrite Hs. cbn [mbind result_bind mret result_ret].
  fold popped. by rewrite Hh, Hv, Hnf.
Qed.

(** X8: under WITNESS_PUBKEYTYPE (and whatever the other flags) a key blob
    that passes the STRICTENC check, if that one is on, but is not a
    compressed key makes CHECKSIG raise [WITNESS_PUBKEYTYPE] before the
    signature blob is looked at. *)
Theorem do_OP_CHECKSIG_witness_pubkeytype (vm : VM) (pair_blob sig_blob : blob)
    (st : list blob) :
  stack vm = pair_blob :: sig_blob :: st →
  truthy (Z.land (flags vm) VERIFY_WITNESS_PUBKEYTYPE) = true →
  pair_blob ≠ [] →
  ¬ compressed_key pair_blob →
  truthy (Z.land (flags vm) VERIFY_STRICTENC) = false ∨ uncompressed_key pair_blob →
  do_OP_CHECKSIG vm
  = (Raise (ScriptError (Some WITNESS_PUBKEYTYPE)), mkVM st (op_count vm) (flags vm)).
Proof.
  intros Hst Hw Hne Hnc Hk.
  unfold do_OP_CHECKSIG. rewrite (do_OP_CHECKSIG_try_stack _ _ _ _ _ Hst). cbv zeta.
  rewrite (when_passes (truthy (Z.land (flags vm) VERIFY_STRICTENC))
             (check_public_key_encoding pair_blob)), Hw.
  - cbn [mbind result_bind when].
    assert (check_witness_pubkeytype pair_blob
            = Raise (ScriptError (Some WITNESS_PUBKEYTYPE))) as ->; [|done].
    rewrite <- check_witness_pubkeytype_iff in Hnc.
    unfold check_witness_pubkeytype in *. rewrite byte2int_head in *.
    destruct pair_blob as [|x b]; [done|]. cbn [head mbind result_bind] in *.
    unfold raise_if in *. by destruct (_ || _).
  - destruct Hk as [Hk|Hk]; [by left|]. right.
    apply check_public_key_encoding_iff. by left.
Qed.

(** ** CHECKMULTISIG: counts, dummy item, stack effect *)

Ltac vm_run tac := erewrite vm_bind_ok by tac; cbv beta.

(** X9: a signature count below 0 or above the key count raises
    [SIG_COUNT]; by then the key count and the key blobs are popped and the
    key count is added to [op_count]. *)
Theorem do_OP_CHECKMULTISIG_sig_count_out_of_range (vm : VM) (kc sc : blob)
    (keys st : list blob) (signature_count : Z) :
  stack vm = kc :: keys ++ sc :: st →
  int_from_script_bytes kc = Ok (len keys) →
  len keys <= 20 →
  int_from_script_bytes sc = Ok signature_count →
  signature_count < 0 ∨ signature_count > len keys →
  do_OP_CHECKMULTISIG vm
  = (Raise (ScriptError (Some SIG_COUNT)),
     mkVM st (op_count vm + len keys) (flags vm)).
Proof.
  intros Hst Hkc Hk20 Hsc Hrange.
  pose proof (len_nonneg keys).
  destruct vm as [stk n f]. simpl in *. subst stk.
  unfold do_OP_CHECKMULTISIG. cbn [flags].
  vm_run ltac:(eapply pop_int_ok; [reflexivity | exact Hkc]).
  vm_run ltac:(reflexivity).
  rewrite (bool_decide_eq_false_2 (len keys < 0 ∨ len keys > 20)) by lia.
  vm_run ltac:(reflexivity).
  vm_run ltac:(cbn [stack op_count flags]; rewrite to_nat_len; apply pop_list_app).
  vm_run ltac:(eapply pop_int_ok; [reflexivity | exact Hsc]).
  rewrite (bool_decide_eq_true_2 _ Hrange).
  reflexivity.
Qed.

(** X10: under NULLDUMMY a non-empty dummy item raises [SIG_NULLDUMMY]
    after all operands are popped and before any signature or key is
    examined. *)
Theorem do_OP_CHECKMULTISIG_nulldummy (vm : VM) (kc sc hack_byte : blob)
    (keys sigs st : list blob) :
  stack vm = kc :: keys ++ sc :: sigs ++ hack_byte :: st →
  int_from_script_bytes kc = Ok (len keys) → len keys <= 20 →
  int_from_script_bytes sc = Ok (len sigs) → len sigs <= len keys →
  truthy (Z.land (flags vm) VERIFY_NULLDUMMY) = true →
  hack_byte ≠ [] →
  do_OP_CHECKMULTISIG vm
  = (Raise (ScriptError (Some SIG_NULLDUMMY)),
     mkVM st (op_count vm + len keys) (flags vm)).
Proof.
  intros Hst Hkc Hk20 Hsc Hsk Hnd Hne.
  pose proof (len_nonneg keys). pose proof (len_nonneg sigs).
  destruct vm as [stk n f]. simpl in *. subst stk.
  unfold do_OP_CHECKMULTISIG. cbn [flags].
  vm_run ltac:(eapply pop_int_ok; [reflexivity | exact Hkc]).
  vm_run ltac:(reflexivity).
  rewrite (bool_decide_eq_false_2 (len keys < 0 ∨ len keys > 20)) by lia.
  vm_run ltac:(reflexivity).
  vm_run ltac:(cbn [stack op_count flags]; rewrite to_nat_len; apply pop_list_app).
  vm_run ltac:(eapply pop_int_ok; [reflexivity | exact Hsc]).
  rewrite (bool_decide_eq_false_2 (len sigs < 0 ∨ len sigs > len keys)) by lia.
  vm_run ltac:(reflexivity).
  vm_run ltac:(cbn [stack op_count flags]; rewrite to_nat_len; apply pop_list_app).
  vm_run ltac:(reflexivity).
  rewrite Hnd. destruct hack_byte; [done|]. reflexivity.
Qed.

(** X11: with a signature count of zero CHECKMULTISIG pushes [VM_TRUE]
    whatever the key blobs are: no key is decoded or checked. *)
Theorem do_OP_CHECKMULTISIG_no_signatures (vm : VM) (keys st : list blob) :
  truthy_bytes VM_TRUE = true →
  multisig_operands vm keys [] st →
  do_OP_CHECKMULTISIG vm
  = (Ok tt, mkVM (VM_TRUE :: st) (op_count vm + len keys) (flags vm)).
Proof.
  intros Ht Hops. rewrite (do_OP_CHECKMULTISIG_operands _ _ _ _ Hops).
  unfold sig_blob_matches. cbn [sig_blob_matches_loop]. cbv zeta.
  assert (accepted (@nil Z) (@nil blob) = true) as -> by done.
  by rewrite Ht.
Qed.

Lemma do_OP_CHECKMULTISIG_effect (vm vm' : VM) (keys sigs st : list blob)
    (r : result unit) :
  multisig_operands vm keys sigs st →
  do_OP_CHECKMULTISIG vm = (r, vm') →
  op_count vm' = op_count vm + len keys
  ∧ flags vm' = flags vm
  ∧ match r with
    | Ok _ => stack vm' = VM_TRUE :: st ∨ stack vm' = VM_FALSE :: st
    | Raise _ => stack vm' = st
    end.
Proof.
  intros Hops. rewrite (do_OP_CHECKMULTISIG_operands _ _ _ _ Hops). cbv zeta.
  destruct (sig_blob_matches _ sigs keys (flags vm)) as [idx|e];
    [|intros [= <- <-]; simpl; auto].
  destruct (_ && _ && _); [intros [= <- <-]; simpl; auto|].
  destruct (accepted idx sigs); intros [= <- <-]; simpl; auto.
Qed.

(** X12: with its operands on the stack CHECKMULTISIG consumes all of them
    and adds the key count to [op_count], however it ends; on a normal
    return exactly one item, [VM_TRUE] or [VM_FALSE], is pushed on the rest
    of the stack; [flags] is not changed. *)
Theorem do_OP_CHECKMULTISIG_stack_effect (vm vm' : VM) (keys sigs st : list blob)
    (r : result unit) :
  multisig_operands vm keys sigs st →
  do_OP_CHECKMULTISIG vm = (r, vm') →
  op_count vm' = op_count vm + len keys
  ∧ flags vm' = flags vm
  ∧ match r with
    | Ok _ => stack vm' = VM_TRUE :: st ∨ stack vm' = VM_FALSE :: st
    | Raise _ => stack vm' = st
    end.
Proof. apply do_OP_CHECKMULTISIG_effect. Qed.

(** ** The key scan *)

Lemma public_pair_in_matches (k : blob) (strict : bool) (ppp : list (Z * Z)) :
  (∃ pp,
     match sec_to_public_pair k strict with
     | Ok p => Ok (Some p)
     | Raise EncodingError => Ok None
     | Raise e => Raise e
     end = Ok pp ∧ public_pair_in pp ppp = true)
  ↔ key_matches strict ppp k.
Proof.
  unfold key_matches. split.
  - intros (pp & Hpp & Hin).
    destruct (sec_to_public_pair k strict) as [P|[]]; try done.
    + injection Hpp as <-. exists P. split; [done|].
      by apply bool_decide_eq_true in Hin.
    + by injection Hpp as <-.
  - intros (P & -> & HP). exists (Some P). split; [done|].
    by apply bool_decide_eq_true.
Qed.

Lemma find_public_pair_spec (keys : list blob) (ppp : list (Z * Z))
    (signature_count : Z) (strict : bool) (w ppb_idx r : Z) :
  find_public_pair keys ppp signature_count strict w ppb_idx = Ok r →
  (r = -1
   ∧ ∀ (i : nat) k, Z.of_nat i < len keys - signature_count →
       keys !! i = Some k → ¬ key_matches strict ppp k)
  ∨ (∃ (i : nat) k,
       r = ppb_idx + 1 + Z.of_nat i
       ∧ Z.of_nat i < len keys - signature_count
       ∧ keys !! i = Some k
       ∧ key_matches strict ppp k
       ∧ ∀ (j : nat) k', (j < i)%nat → keys !! j = Some k' →
           ¬ key_matches strict ppp k').
Proof.
  revert ppb_idx.
  induction keys as [|k ks IH]; intros ppb_idx;
    rewrite find_public_pair_unfold; case_bool_decide as Hlen; try done.
  - intros [= <-]. left. split; [done|]. by intros i k _ Hk.
  - destruct (when strict _) as [[]|]; [|done].
    destruct (when (truthy w) _) as [[]|]; [|done].
    cbn [mbind result_bind].
    destruct (match sec_to_public_pair k strict with
              | Ok p => Ok (Some p)
              | Raise e => _
              end) as [pp|] eqn:Hpp; [|done].
    cbn [mbind result_bind].
    destruct (public_pair_in pp ppp) eqn:Hin.
    + intros [= <-]. right. exists 0%nat, k.
      split; [lia|]. split; [lia|]. split; [done|]. split.
      * apply public_pair_in_matches. by exists pp.
      * intros j k' Hj. lia.
    + assert (¬ key_matches strict ppp k) as Hno.
      { intros Hm. apply public_pair_in_matches in Hm as (pp' & Hpp' & Hin').
        rewrite Hpp in Hpp'. injection Hpp' as <-. congruence. }
      assert (len (k :: ks) = len ks + 1) as Hl by (unfold len; simpl; lia).
      intros Hr. apply IH in Hr as [[-> Hall]|(i & k' & -> & Hi & Hk' & Hm & Hbefore)].
      * left. split; [done|]. intros [|i] k' Hi Hk'; simpl in Hk'.
        -- by injection Hk' as <-.
        -- apply (Hall i); [lia | done].
      * right. exists (S i), k'. split; [lia|]. split; [lia|]. split; [done|].
        split; [done|]. intros [|j] k'' Hj Hk''; simpl in Hk''.
        -- by injection Hk'' as <-.
        -- apply (Hbefore j); [lia | done].
  - intros [= <-]. left. split; [done|]. intros i k' Hi Hk'.
    apply lookup_lt_Some in Hk'. unfold len in *. lia.
Qed.

(** X13: when [find_public_pair] returns, either it returns [-1] and none of
    the keys it may examine (the first [len(keys) - signature_count] ones)
    decodes to a candidate point, or it returns [ppb_idx + 1 + i] where [i]
    is the position of the first key that does, and that position lies
    among the examined ones. *)
Theorem find_public_pair_first_match (keys : list blob) (ppp : list (Z * Z))
    (signature_count : Z) (strict : bool) (w ppb_idx r : Z) :
  find_public_pair keys ppp signature_count strict w ppb_idx = Ok r →
  (r = -1
   ∧ ∀ (i : nat) k, Z.of_nat i < len keys - signature_count →
       keys !! i = Some k → ¬ key_matches strict ppp k)
  ∨ (∃ (i : nat) k,
       r = ppb_idx + 1 + Z.of_nat i
       ∧ Z.of_nat i < len keys - signature_count
       ∧ keys !! i = Some k
       ∧ key_matches strict ppp k
       ∧ ∀ (j : nat) k', (j < i)%nat → keys !! j = Some k' →
           ¬ key_matches strict ppp k').
Proof. apply find_public_pair_spec. Qed.

(** ** The matcher: shape of the index sequence *)

(** Once a [-1] is recorded the loop returns what it has. *)
Lemma sig_blob_matches_loop_after_minus (vm : VM) (blobs keys : list blob) (fl : Z)
    (strict : bool) (sigs : list blob) (cache : gmap Z Z) (indices : list Z) (ppb : Z) :
  -1 ∈ indices →
  sig_blob_matches_loop vm blobs keys fl strict sigs cache indices ppb = Ok indices.
Proof.
  intros Hin. destruct sigs as [|s sigs]; [done|].
  cbn [sig_blob_matches_loop]. case_bool_decide; [|done].
  by rewrite (bool_decide_eq_true_2 _ Hin).
Qed.

Lemma elem_of_snoc_minus (l : list Z) : -1 ∈ l ++ [-1].
Proof. apply elem_of_app. right. apply list_elem_of_here. Qed.

Lemma sig_blob_matches_loop_shape (vm : VM) (blobs keys : list blob) (fl : Z)
    (strict : bool) (sigs : list blob) :
  ∀ (cache : gmap Z Z) (pre : list Z) (ppb : Z) (result : list Z),
    -1 <= ppb →
    strictly_increasing pre → (∀ x, x ∈ pre → 0 <= x <= ppb) →
    sig_blob_matches_loop vm blobs keys fl strict sigs cache pre ppb = Ok result →
    (length result <= length pre + length sigs)%nat
    ∧ ∃ pre', (result = pre' ∨ result = pre' ++ [-1])
              ∧ strictly_increasing pre' ∧ ∀ x, x ∈ pre' → 0 <= x.
Proof.
  induction sigs as [|s sigs IH]; intros cache pre ppb result Hppb Hsi Hrange.
  - intros [= <-]. split; [lia|]. exists pre. split; [by left|]. split; [done|].
    intros x Hx. apply Hrange in Hx. lia.
  - assert (-1 ∉ pre) as Hno by (intros Hx; apply Hrange in Hx; lia).
    assert (∀ res, Ok (pre ++ [-1]) = Ok res →
              (length res <= length pre + length (s :: sigs))%nat
              ∧ ∃ pre', (res = pre' ∨ res = pre' ++ [-1])
                        ∧ strictly_increasing pre' ∧ ∀ x, x ∈ pre' → 0 <= x) as Hminus.
    { intros res [= <-]. split; [rewrite length_app; simpl; lia|].
      exists pre. split; [by right|]. split; [done|].
      intros x Hx. apply Hrange in Hx. lia. }
    cbn [sig_blob_matches_loop].
    case_bool_decide.
    2:{ intros [= <-]. split; [lia|]. exists pre. split; [by left|]. split; [done|].
        intros x Hx. apply Hrange in Hx. lia. }
    rewrite (bool_decide_eq_false_2 _ Hno).
    destruct (parse_signature_blob s fl) as [[sig_pair signature_type]|[]];
      try done;
      try (rewrite sig_blob_matches_loop_after_minus by apply elem_of_snoc_minus;
           apply Hminus).
    unfold mbind, result_bind.
    destruct (match cache !! signature_type with
              | Some h => Ok (h, cache)
              | None => _
              end) as [[signature_hash cache']|]; [|done].
    destruct (match possible_public_pairs_for_signature signature_hash sig_pair with
              | Ok l => Ok l
              | Raise e => _
              end) as [ppp|]; [|done].
    destruct (find_public_pair keys ppp (len sigs) strict _ ppb) as [r|] eqn:Hfind;
      [|done].
    destruct (decide (r = -1)) as [->|Hr].
    + rewrite sig_blob_matches_loop_after_minus by apply elem_of_snoc_minus.
      apply Hminus.
    + apply find_public_pair_result in Hfind as [Hfind|Hfind]; [done|].
      intros Hres. apply IH in Hres as [Hlen Hshape].
      * split; [|done]. rewrite length_app in Hlen. simpl in *. lia.
      * lia.
      * apply strictly_increasing_snoc; [done|].
        intros x Hx. apply Hrange in Hx. lia.
      * intros x [Hx|Hx]%elem_of_app.
        -- apply Hrange in Hx. lia.
        -- apply list_elem_of_singleton in Hx. lia.
Qed.

(** X14: the index sequence [sig_blob_matches] returns is never longer than
    the list of signature blobs, and it is a strictly increasing run of
    non-negative indices, possibly followed by one final [-1]; with more
    signature blobs than key blobs it is empty. *)
Theorem sig_blob_matches_shape (vm : VM) (sigs keys : list blob) (fl : Z)
    (sig_blob_indices : list Z) :
  sig_blob_matches vm sigs keys fl = Ok sig_blob_indices →
  (length sig_blob_indices <= length sigs)%nat
  ∧ (∃ pre, (sig_blob_indices = pre ∨ sig_blob_indices = pre ++ [-1])
            ∧ strictly_increasing pre ∧ ∀ x, x ∈ pre → 0 <= x)
  ∧ (len sigs > len keys → sig_blob_indices = []).
Proof.
  intros Hm. split; [|split].
  - unfold sig_blob_matches in Hm.
    apply sig_blob_matches_loop_shape in Hm as [Hlen _]; try done.
    + by intros x Hx%elem_of_nil.
  - unfold sig_blob_matches in Hm.
    apply sig_blob_matches_loop_shape in Hm as [_ Hshape]; try done.
    + by intros x Hx%elem_of_nil.
  - intros Hgt. unfold sig_blob_matches in Hm.
    destruct sigs as [|s sigs]; [by injection Hm as <-|].
    cbn [sig_blob_matches_loop] in Hm.
    rewrite bool_decide_eq_false_2 in Hm by lia. by injection Hm as <-.
Qed.

(** X15: a first signature blob that fails to decode ([ValueError] for the
    empty blob, [UnexpectedDER] from the decoder) makes the matcher return
    the single entry [-1]: no later signature blob is parsed and no key blob
    is examined.  A script error raised by the parser's validators is raised
    by the matcher. *)
Theorem sig_blob_matches_undecodable_head (vm : VM) (s : blob) (sigs keys : list blob)
    (fl : Z) (e : exn) :
  len (s :: sigs) <= len keys →
  parse_signature_blob s fl = Raise e →
  (e = ValueError ∨ e = UnexpectedDER → sig_blob_matches vm (s :: sigs) keys fl = Ok [-1])
  ∧ (∀ code, e = ScriptError code →
       sig_blob_matches vm (s :: sigs) keys fl = Raise (ScriptError code)).
Proof.
  intros Hle Hp. unfold sig_blob_matches. cbn [sig_blob_matches_loop].
  rewrite (bool_decide_eq_true_2 _ Hle).
  rewrite (bool_decide_eq_false_2 (-1 ∈ [])) by (by intros ?%elem_of_nil).
  rewrite Hp. split.
  - intros [-> | ->];
      by rewrite sig_blob_matches_loop_after_minus by apply list_elem_of_here.
  - by intros code ->.
Qed.

(** ** The matcher: what an accepted sequence means *)

Lemma sig_blob_matches_loop_prefix (vm : VM) (blobs keys : list blob) (fl : Z)
    (strict : bool) (sigs : list blob) :
  ∀ (cache : gmap Z Z) (indices : list Z) (ppb : Z) (result : list Z),
    sig_blob_matches_loop vm blobs keys fl strict sigs cache indices ppb = Ok result →
    ∃ more, result = indices ++ more.
Proof.
  induction sigs as [|s sigs IH]; intros cache indices ppb result.
  - intros [= <-]. exists []. by rewrite app_nil_r.
  - cbn [sig_blob_matches_loop].
    assert (∀ x cache' ppb',
              sig_blob_matches_loop vm blobs keys fl strict sigs cache'
                (indices ++ [x]) ppb' = Ok result →
              ∃ more, result = indices ++ more) as Hrec.
    { intros x cache' ppb' Hr. apply IH in Hr as [more ->].
      exists (x :: more). by rewrite <- app_assoc. }
    case_bool_decide; [|intros [= <-]; exists []; by rewrite app_nil_r].
    case_bool_decide; [intros [= <-]; exists []; by rewrite app_nil_r|].
    destruct (parse_signature_blob s fl) as [[sig_pair signature_type]|[]];
      try done; try apply Hrec.
    unfold mbind, result_bind.
    destruct (match cache !! signature_type with
              | Some h => Ok (h, cache)
              | None => _
              end) as [[signature_hash cache']|]; [|done].
    destruct (match possible_public_pairs_for_signature signature_hash sig_pair with
              | Ok l => Ok l
              | Raise e => _
              end) as [ppp|]; [|done].
    destruct (find_public_pair keys ppp (len sigs) strict _ ppb) as [r|]; [|done].
    apply Hrec.
Qed.

(** The digest cache holds, for a hash type, what
    [signature_for_hash_type_f] returns for it; the loop keeps it so. *)
Lemma sig_cache_step (vm : VM) (blobs : list blob) (cache cache' : gmap Z Z)
    (signature_type signature_hash : Z) :
  (∀ t h, cache !! t = Some h → signature_for_hash_type_f t blobs vm = Ok h) →
  match cache !! signature_type with
  | Some h => Ok (h, cache)
  | None =>
      h ← signature_for_hash_type_f signature_type blobs vm;
      Ok (h, <[signature_type := h]> cache)
  end = Ok (signature_hash, cache') →
  signature_for_hash_type_f signature_type blobs vm = Ok signature_hash
  ∧ ∀ t h, cache' !! t = Some h → signature_for_hash_type_f t blobs vm = Ok h.
Proof.
  intros Hok. destruct (cache !! signature_type) as [h|] eqn:Hc.
  - intros [= <- <-]. split; [by apply Hok | done].
  - destruct (signature_for_hash_type_f signature_type blobs vm) as [h|] eqn:Hh;
      [|done].
    intros [= <- <-]. split; [done|].
    intros t h' Ht. destruct (decide (signature_type = t)) as [<-|Hne].
    + rewrite lookup_insert_eq in Ht. congruence.
    + rewrite lookup_insert_ne in Ht by done. by apply Hok.
Qed.

Lemma sig_blob_matches_loop_sound (vm : VM) (blobs keys : list blob) (fl : Z)
    (sigs : list blob) :
  ∀ (cache : gmap Z Z) (indices : list Z) (ppb : Z) (result : list Z),
    (∀ t h, cache !! t = Some h → signature_for_hash_type_f t blobs vm = Ok h) →
    sig_blob_matches_loop vm blobs keys fl (truthy (Z.land fl VERIFY_STRICTENC))
      sigs cache indices ppb = Ok result →
    -1 ∉ result →
    length result = (length indices + length sigs)%nat →
    ∀ s, s ∈ sigs → ∃ k, k ∈ keys ∧ signed_by vm blobs fl s k.
Proof.
  induction sigs as [|s sigs IH]; intros cache indices ppb result Hcache.
  - intros _ _ _ s' Hs'. by apply elem_of_nil in Hs'.
  - cbn [sig_blob_matches_loop].
    case_bool_decide; [|intros [= <-] _ Hl; simpl in Hl; lia].
    case_bool_decide; [intros [= <-] _ Hl; simpl in Hl; lia|].
    destruct (parse_signature_blob s fl) as [[sig_pair signature_type]|[]] eqn:Hp;
      try done;
      try (rewrite sig_blob_matches_loop_after_minus by apply elem_of_snoc_minus;
           intros [= <-] Hno; exfalso; apply Hno, elem_of_snoc_minus).
    unfold mbind at 1 2 3, result_bind at 1 2 3.
    destruct (match cache !! signature_type with
              | Some h => Ok (h, cache)
              | None => _
              end) as [[signature_hash cache']|] eqn:Hstep; [|done].
    apply sig_cache_step in Hstep as [Hh Hcache']; [|done].
    destruct (match possible_public_pairs_for_signature signature_hash sig_pair with
              | Ok l => Ok l
              | Raise e => _
              end) as [ppp|] eqn:Hppp; [|done].
    destruct (find_public_pair keys ppp (len sigs) _ _ ppb) as [r|] eqn:Hfind;
      [|done].
    intros Hres Hno Hlen s' Hs'.
    apply elem_of_cons in Hs' as [->|Hs'].
    + apply sig_blob_matches_loop_prefix in Hres as Hpre. destruct Hpre as [more ->].
      assert (r ≠ -1) as Hr.
      { intros ->. apply Hno. apply elem_of_app. left. apply elem_of_snoc_minus. }
      apply find_public_pair_spec in Hfind
        as [[? _]|(i & k & _ & _ & Hk & Hm & _)]; [done|].
      exists k. split; [by eapply list_elem_of_lookup_2|].
      destruct (possible_public_pairs_for_signature signature_hash sig_pair)
        as [l|[]] eqn:Hl; try done.
      * injection Hppp as <-. by exists sig_pair, signature_type, signature_hash, l.
      * injection Hppp as <-. destruct Hm as (P & _ & HP). by apply elem_of_nil in HP.
    + apply (IH _ _ _ _ Hcache' Hres Hno); [|done].
      rewrite length_app. simpl in *. lia.
Qed.

(** X16: when the matcher returns a sequence without [-1] that has one entry
    per signature blob (the sequences CHECKMULTISIG accepts), every signature
    blob parsed and some key blob of the list decodes to one of its candidate
    points. *)
Theorem sig_blob_matches_sound (vm : VM) (sigs keys : list blob) (fl : Z)
    (sig_blob_indices : list Z) :
  sig_blob_matches vm sigs keys fl = Ok sig_blob_indices →
  -1 ∉ sig_blob_indices →
  length sig_blob_indices = length sigs →
  ∀ s, s ∈ sigs → ∃ k, k ∈ keys ∧ signed_by vm sigs fl s k.
Proof.
  intros Hm Hno Hlen. unfold sig_blob_matches in Hm.
  eapply (sig_blob_matches_loop_sound vm sigs keys fl sigs ∅ [] (-1));
    [|exact Hm|exact Hno|exact Hlen].
  intros t h Ht. by rewrite lookup_empty in Ht.
Qed.

(** ** The matcher: signatures in key order are accepted *)

Lemma find_public_pair_finds (keys : list blob) (ppp : list (Z * Z))
    (signature_count : Z) (strict : bool) (w : Z) :
  (∀ k, k ∈ keys →
     when strict (check_public_key_encoding k) = Ok tt
     ∧ when (truthy w) (check_witness_pubkeytype k) = Ok tt
     ∧ ∀ e, sec_to_public_pair k strict = Raise e → e = EncodingError) →
  ∀ (j : nat) (k : blob) (ppb_idx : Z),
    keys !! j = Some k →
    key_matches strict ppp k →
    Z.of_nat j < len keys - signature_count →
    ∃ i : nat, (i <= j)%nat
      ∧ find_public_pair keys ppp signature_count strict w ppb_idx
        = Ok (ppb_idx + 1 + Z.of_nat i).
Proof.
  induction keys as [|k0 ks IH]; intros Hkeys j k ppb_idx Hk Hm Hj; [done|].
  assert (len (k0 :: ks) = len ks + 1) as Hl by (unfold len; simpl; lia).
  rewrite find_public_pair_unfold.
  rewrite bool_decide_eq_true_2 by lia.
  destruct (Hkeys k0 (list_elem_of_here _ _)) as (-> & -> & Henc).
  cbn [mbind result_bind].
  destruct (public_pair_in
              match sec_to_public_pair k0 strict with
              | Ok p => Some p
              | Raise _ => None
              end ppp) eqn:Hin.
  - exists 0%nat. split; [lia|].
    destruct (sec_to_public_pair k0 strict) as [P|e]; cbn [mbind result_bind].
    + rewrite Hin. f_equal. lia.
    + rewrite (Henc e eq_refl). cbn [mbind result_bind]. rewrite Hin. f_equal. lia.
  - destruct j as [|j]; simpl in Hk.
    + injection Hk as <-. destruct Hm as (P & HP & HinP).
      rewrite HP in Hin. simpl in Hin.
      by rewrite (bool_decide_eq_true_2 _ HinP) in Hin.
    + destruct (IH (λ k' Hk', Hkeys k' (list_elem_of_further _ _ _ Hk'))
                  j k (ppb_idx + 1) Hk Hm ltac:(lia)) as (i & Hi & Hfind).
      exists (S i). split; [lia|].
      destruct (sec_to_public_pair k0 strict) as [P|e]; cbn [mbind result_bind].
      * rewrite Hin, Hfind. f_equal. lia.
      * rewrite (Henc e eq_refl). cbn [mbind result_bind].
        rewrite Hin, Hfind. f_equal. lia.
Qed.

Lemma sig_blob_matches_loop_complete (vm : VM) (blobs keys : list blob) (fl : Z)
    (sigs : list blob) :
  let strict := truthy (Z.land fl VERIFY_STRICTENC) in
  (∀ k, k ∈ keys →
     when strict (check_public_key_encoding k) = Ok tt
     ∧ when (truthy (Z.land fl VERIFY_WITNESS_PUBKEYTYPE))
            (check_witness_pubkeytype k) = Ok tt
     ∧ ∀ e, sec_to_public_pair k strict = Raise e → e = EncodingError) →
  ∀ (cache : gmap Z Z) (indices : list Z) (ppb : Z),
    (∀ t h, cache !! t = Some h → signature_for_hash_type_f t blobs vm = Ok h) →
    (-1 ∉ indices) → -1 <= ppb →
    (∀ (i : nat) s, sigs !! i = Some s →
       ∃ (j : nat) k, keys !! j = Some k ∧ signed_by vm blobs fl s k
                      ∧ (j + (length sigs - 1 - i) < length keys)%nat) →
    ∃ result,
      sig_blob_matches_loop vm blobs keys fl strict sigs cache indices ppb = Ok result
      ∧ (-1 ∉ result)
      ∧ length result = (length indices + length sigs)%nat.
Proof.
  intros strict Hkeys.
  induction sigs as [|s sigs IH]; intros cache indices ppb Hcache Hno Hppb Hsigs.
  - exists indices. split; [done|]. split; [done|]. simpl. lia.
  - destruct (Hsigs 0%nat s eq_refl)
      as (j & k & Hk & (sp & ty & h & l & Hp & Hh & Hl & Hm) & Hj).
    simpl in Hj.
    cbn [sig_blob_matches_loop].
    rewrite bool_decide_eq_true_2.
    2:{ apply lookup_lt_Some in Hk. unfold len. simpl. lia. }
    rewrite (bool_decide_eq_false_2 _ Hno), Hp.
    assert (∃ cache',
              match cache !! ty with
              | Some h0 => Ok (h0, cache)
              | None =>
                  h0 ← signature_for_hash_type_f ty blobs vm;
                  Ok (h0, <[ty := h0]> cache)
              end = Ok (h, cache')) as [cache' Hstep].
    { destruct (cache !! ty) as [h0|] eqn:Hc.
      - apply Hcache in Hc. exists cache. congruence.
      - rewrite Hh. by eexists. }
    rewrite Hstep. unfold mbind at 1 2, result_bind at 1 2. rewrite Hl.
    apply sig_cache_step in Hstep as [_ Hcache']; [|done].
    destruct (find_public_pair_finds keys l (len sigs) strict
                (Z.land fl VERIFY_WITNESS_PUBKEYTYPE) Hkeys j k ppb Hk Hm)
      as (i & Hi & Hfind).
    { unfold len. lia. }
    rewrite Hfind. unfold mbind, result_bind.
    destruct (IH cache' (indices ++ [ppb + 1 + Z.of_nat i]) (ppb + 1 + Z.of_nat i))
      as (result & Hres & Hno' & Hlen); try done; try lia.
    + intros [Hx|Hx]%elem_of_app; [done|].
      apply list_elem_of_singleton in Hx. lia.
    + intros i' s' Hs'. destruct (Hsigs (S i') s' Hs') as (j' & k' & ? & ? & Hj').
      exists j', k'. split; [done|]. split; [done|]. simpl in Hj'. lia.
    + exists result. split; [done|]. split; [done|].
      rewrite length_app in Hlen. simpl in *. lia.
Qed.

Lemma sig_blob_matches_window (vm : VM) (sigs keys : list blob) (fl : Z) :
  let strict := truthy (Z.land fl VERIFY_STRICTENC) in
  (∀ k, k ∈ keys →
     when strict (check_public_key_encoding k) = Ok tt
     ∧ when (truthy (Z.land fl VERIFY_WITNESS_PUBKEYTYPE))
            (check_witness_pubkeytype k) = Ok tt
     ∧ ∀ e, sec_to_public_pair k strict = Raise e → e = EncodingError) →
  (∀ (i : nat) s, sigs !! i = Some s →
     ∃ (j : nat) k, keys !! j = Some k ∧ signed_by vm sigs fl s k
                    ∧ (j + (length sigs - 1 - i) < length keys)%nat) →
  ∃ sig_blob_indices,
    sig_blob_matches vm sigs keys fl = Ok sig_blob_indices
    ∧ accepted sig_blob_indices sigs = true.
Proof.
  intros strict Hkeys Hsigs. unfold sig_blob_matches.
  assert (∀ t h, (∅ : gmap Z Z) !! t = Some h →
            signature_for_hash_type_f t sigs vm = Ok h) as Hcache.
  { intros t h Ht. by rewrite lookup_empty in Ht. }
  assert (-1 ∉ (@nil Z)) as Hnil by (by intros ?%elem_of_nil).
  destruct (sig_blob_matches_loop_complete vm sigs keys fl sigs Hkeys ∅ [] (-1)
              Hcache Hnil ltac:(lia) Hsigs)
    as (result & Hres & Hno & Hlen).
  - exists result. split; [done|]. apply accepted_spec.
    split; [done|]. split; [done|].
    eapply sig_blob_matches_loop_increasing; [|exact Hres|exact Hno].
    intros _. split; [by intros i a b Ha | by intros x Hx%elem_of_nil].
Qed.

(** X17: if every key blob passes the key checks the flags switch on and
    decodes or fails with [EncodingError], and every signature blob has a key
    it is valid for among the keys its scan examines (the first
    [len(keys) - (signatures still to come)] ones), then the matcher returns
    a sequence that CHECKMULTISIG accepts. *)
Theorem sig_blob_matches_accepts_within_window (vm : VM) (sigs keys : list blob)
    (fl : Z) :
  let strict := truthy (Z.land fl VERIFY_STRICTENC) in
  (∀ k, k ∈ keys →
     when strict (check_public_key_encoding k) = Ok tt
     ∧ when (truthy (Z.land fl VERIFY_WITNESS_PUBKEYTYPE))
            (check_witness_pubkeytype k) = Ok tt
     ∧ ∀ e, sec_to_public_pair k strict = Raise e → e = EncodingError) →
  (∀ (i : nat) s, sigs !! i = Some s →
     ∃ (j : nat) k, keys !! j = Some k ∧ signed_by vm sigs fl s k
                    ∧ (j + (length sigs - 1 - i) < length keys)%nat) →
  ∃ sig_blob_indices,
    sig_blob_matches vm sigs keys fl = Ok sig_blob_indices
    ∧ accepted sig_blob_indices sigs = true.
Proof. apply sig_blob_matches_window. Qed.

Lemma increasing_positions_gap (pos : list nat) :
  (∀ i a b, pos !! i = Some a → pos !! S i = Some b → (a < b)%nat) →
  ∀ d i a b, pos !! i = Some a → pos !! (i + d)%nat = Some b → (a + d <= b)%nat.
Proof.
  intros Hinc. induction d as [|d IH]; intros i a b Ha Hb.
  - rewrite Nat.add_0_r in Hb. assert (a = b) by congruence. lia.
  - replace (i + S d)%nat with (S (i + d)) in Hb by lia.
    destruct (pos !! (i + d)%nat) as [c|] eqn:Hc.
    + pose proof (IH i a c Ha Hc). pose proof (Hinc _ _ _ Hc Hb). lia.
    + apply lookup_ge_None in Hc. apply lookup_lt_Some in Hb. lia.
Qed.

(** X18: signatures given in key order are accepted: if the i-th signature
    blob is valid for the key at position [pos i], the positions increase
    strictly and lie within the key list, and every key blob passes the key
    checks in force and either decodes or fails with [EncodingError] (the
    one class [find_public_pair] catches), then the matcher returns a
    sequence that CHECKMULTISIG accepts. *)
Theorem sig_blob_matches_accepts_in_order (vm : VM) (sigs keys : list blob)
    (fl : Z) (pos : list nat) :
  let strict := truthy (Z.land fl VERIFY_STRICTENC) in
  (∀ k, k ∈ keys →
     when strict (check_public_key_encoding k) = Ok tt
     ∧ when (truthy (Z.land fl VERIFY_WITNESS_PUBKEYTYPE))
            (check_witness_pubkeytype k) = Ok tt
     ∧ ∀ e, sec_to_public_pair k strict = Raise e → e = EncodingError) →
  length pos = length sigs →
  (∀ i a b, pos !! i = Some a → pos !! S i = Some b → (a < b)%nat) →
  (∀ (i : nat) s, sigs !! i = Some s →
     ∃ (j : nat) k, pos !! i = Some j ∧ keys !! j = Some k
                    ∧ signed_by vm sigs fl s k) →
  ∃ sig_blob_indices,
    sig_blob_matches vm sigs keys fl = Ok sig_blob_indices
    ∧ accepted sig_blob_indices sigs = true.
Proof.
  intros strict Hkeys Hlen Hinc Hsigs.
  apply sig_blob_matches_window; [done|].
  intros i s Hs. destruct (Hsigs i s Hs) as (j & k & Hpos & Hk & Hsigned).
  exists j, k. split; [done|]. split; [done|].
  apply lookup_lt_Some in Hs as Hi.
  destruct (pos !! (length sigs - 1)%nat) as [b|] eqn:Hlast.
  - assert (∃ s', sigs !! (length sigs - 1)%nat = Some s') as [s' Hs'].
    { apply lookup_lt_is_Some. lia. }
    destruct (Hsigs _ s' Hs') as (j' & k' & Hpos' & Hk' & _).
    assert (b = j') by congruence. subst j'.
    apply lookup_lt_Some in Hk'.
    pose proof (increasing_positions_gap pos Hinc (length sigs - 1 - i) i j b Hpos)
      as Hgap.
    replace (i + (length sigs - 1 - i))%nat with (length sigs - 1)%nat in Hgap by lia.
    specialize (Hgap Hlast). lia.
  - apply lookup_ge_None in Hlast. lia.
Qed.

(** ** CHECKMULTISIG: what a pushed [VM_TRUE] means *)

(** X19: when CHECKMULTISIG pushes [VM_TRUE], every signature blob parsed
    and is valid for some key blob of the list. *)
Theorem do_OP_CHECKMULTISIG_true_sound (vm : VM) (keys sigs st : list blob) :
  VM_TRUE ≠ VM_FALSE →
  multisig_operands vm keys sigs st →
  let vm1 := mkVM st (op_count vm + len keys) (flags vm) in
  do_OP_CHECKMULTISIG vm
  = (Ok tt, mkVM (VM_TRUE :: st) (op_count vm + len keys) (flags vm)) →
  ∀ s, s ∈ sigs → ∃ k, k ∈ keys ∧ signed_by vm1 sigs (flags vm) s k.
Proof.
  intros Hne Hops vm1. rewrite (do_OP_CHECKMULTISIG_operands _ _ _ _ Hops).
  fold vm1. cbv zeta.
  destruct (sig_blob_matches vm1 sigs keys (flags vm)) as [idx|e] eqn:Hm; [|done].
  destruct (accepted idx sigs) eqn:Hacc.
  - intros _. apply accepted_spec in Hacc as (Hno & Hlen & _).
    unfold sig_blob_matches in Hm.
    eapply (sig_blob_matches_loop_sound vm1 sigs keys (flags vm) sigs ∅ [] (-1));
      [|exact Hm|exact Hno|exact Hlen].
    intros t h Ht. by rewrite lookup_empty in Ht.
  - destruct (_ && _ && _); intros [= ?]; done.
Qed.

(** X20: signatures in key order make CHECKMULTISIG push [VM_TRUE]: with the
    operands on the stack, every key blob passing the key checks in force
    and either decoding or failing with [EncodingError] (the one class
    [find_public_pair] catches), and the i-th signature blob valid for the
    key at position [pos i] for strictly increasing positions. *)
Theorem do_OP_CHECKMULTISIG_in_order (vm : VM) (keys sigs st : list blob)
    (pos : list nat) :
  truthy_bytes VM_TRUE = true →
  multisig_operands vm keys sigs st →
  let vm1 := mkVM st (op_count vm + len keys) (flags vm) in
  let strict := truthy (Z.land (flags vm) VERIFY_STRICTENC) in
  (∀ k, k ∈ keys →
     when strict (check_public_key_encoding k) = Ok tt
     ∧ when (truthy (Z.land (flags vm) VERIFY_WITNESS_PUBKEYTYPE))
            (check_witness_pubkeytype k) = Ok tt
     ∧ ∀ e, sec_to_public_pair k strict = Raise e → e = EncodingError) →
  length pos = length sigs →
  (∀ i a b, pos !! i = Some a → pos !! S i = Some b → (a < b)%nat) →
  (∀ (i : nat) s, sigs !! i = Some s →
     ∃ (j : nat) k, pos !! i = Some j ∧ keys !! j = Some k
                    ∧ signed_by vm1 sigs (flags vm) s k) →
  do_OP_CHECKMULTISIG vm
  = (Ok tt, mkVM (VM_TRUE :: st) (op_count vm + len keys) (flags vm)).
Proof.
  intros Ht Hops vm1 strict Hkeys Hlen Hinc Hsigs.
  rewrite (do_OP_CHECKMULTISIG_operands _ _ _ _ Hops). fold vm1. cbv zeta.
  destruct (sig_blob_matches_window vm1 sigs keys (flags vm) Hkeys)
    as (idx & -> & ->).
  - intros i s Hs. destruct (Hsigs i s Hs) as (j & k & Hpos & Hk & Hsigned).
    exists j, k. split; [done|]. split; [done|].
    apply lookup_lt_Some in Hs as Hi.
    destruct (pos !! (length sigs - 1)%nat) as [b|] eqn:Hlast.
    + assert (∃ s', sigs !! (length sigs - 1)%nat = Some s') as [s' Hs'].
      { apply lookup_lt_is_Some. lia. }
      destruct (Hsigs _ s' Hs') as (j' & k' & Hpos' & Hk' & _).
      assert (b = j') by congruence. subst j'.
      apply lookup_lt_Some in Hk'.
      pose proof (increasing_positions_gap pos Hinc (length sigs - 1 - i) i j b Hpos)
        as Hgap.
      replace (i + (length sigs - 1 - i))%nat with (length sigs - 1)%nat in Hgap by lia.
      specialize (Hgap Hlast). lia.
    + apply lookup_ge_None in Hlast. lia.
  - by rewrite Ht.
Qed.

(** ** The VERIFY opcodes *)

Variable bool_from_script_bytes : blob → bool.

Lemma verify_top_cons (b : blob) (st : list blob) (n f : Z) :
  verify_top bool_from_script_bytes (mkVM (b :: st) n f)
  = (if bool_from_script_bytes b then Ok tt else Raise (ScriptError (Some VERIFY)),
     mkVM st n f).
Proof.
  unfold verify_top, mbind, vmM_bind, pop, lift, raise_if. simpl.
  by destruct (bool_from_script_bytes b).
Qed.

(** X21: CHECKSIGVERIFY returns normally exactly when CHECKSIG pushes
    [VM_TRUE], and then leaves the stack without the two operands and
    without the boolean; when CHECKSIG pushes [VM_FALSE] it raises [VERIFY];
    what CHECKSIG raises it raises. *)
Theorem do_OP_CHECKSIGVERIFY_verdict (vm : VM) (pair_blob sig_blob : blob)
    (st : list blob) :
  stack vm = pair_blob :: sig_blob :: st →
  bool_from_script_bytes VM_TRUE = true →
  bool_from_script_bytes VM_FALSE = false →
  let popped := mkVM st (op_count vm) (flags vm) in
  (do_OP_CHECKSIGVERIFY bool_from_script_bytes vm = (Ok tt, popped)
   ↔ do_OP_CHECKSIG vm = (Ok tt, mkVM (VM_TRUE :: st) (op_count vm) (flags vm)))
  ∧ (do_OP_CHECKSIG vm = (Ok tt, mkVM (VM_FALSE :: st) (op_count vm) (flags vm)) →
     do_OP_CHECKSIGVERIFY bool_from_script_bytes vm
     = (Raise (ScriptError (Some VERIFY)), popped))
  ∧ (∀ e vm', do_OP_CHECKSIG vm = (Raise e, vm') →
     do_OP_CHECKSIGVERIFY bool_from_script_bytes vm = (Raise e, vm')).
Proof.
  intros Hst Ht Hf popped. unfold do_OP_CHECKSIGVERIFY, mbind, vmM_bind.
  destruct (do_OP_CHECKSIG vm) as [r vm1] eqn:Hrun.
  apply (do_OP_CHECKSIG_effect _ _ _ _ _ _ Hst) in Hrun as (Hop & Hfl & Hstk).
  destruct vm1 as [stk n f]. simpl in *. subst n f.
  destruct r as [[]|e].
  - destruct Hstk as [-> | ->]; rewrite verify_top_cons.
    + rewrite Ht. repeat split; try done.
      intros [= Heq]. rewrite <- Heq in Hf. congruence.
    + rewrite Hf. repeat split; try done.
      intros [= Heq]. rewrite Heq in Hf. congruence.
  - subst stk. repeat split; try done; by intros e' vm' [= <- <-].
Qed.

(** X22: with its operands on the stack CHECKMULTISIGVERIFY returns normally
    exactly when CHECKMULTISIG pushes [VM_TRUE], leaving the rest of the
    stack; when CHECKMULTISIG pushes [VM_FALSE] it raises [VERIFY]; what
    CHECKMULTISIG raises it raises. *)
Theorem do_OP_CHECKMULTISIGVERIFY_verdict (vm : VM) (keys sigs st : list blob) :
  multisig_operands vm keys sigs st →
  bool_from_script_bytes VM_TRUE = true →
  bool_from_script_bytes VM_FALSE = false →
  let popped := mkVM st (op_count vm + len keys) (flags vm) in
  (do_OP_CHECKMULTISIGVERIFY bool_from_script_bytes vm = (Ok tt, popped)
   ↔ do_OP_CHECKMULTISIG vm
     = (Ok tt, mkVM (VM_TRUE :: st) (op_count vm + len keys) (flags vm)))
  ∧ (do_OP_CHECKMULTISIG vm
     = (Ok tt, mkVM (VM_FALSE :: st) (op_count vm + len keys) (flags vm)) →
     do_OP_CHECKMULTISIGVERIFY bool_from_script_bytes vm
     = (Raise (ScriptError (Some VERIFY)), popped))
  ∧ (∀ e vm', do_OP_CHECKMULTISIG vm = (Raise e, vm') →
     do_OP_CHECKMULTISIGVERIFY bool_from_script_bytes vm = (Raise e, vm')).
Proof.
  intros Hops Ht Hf popped. unfold do_OP_CHECKMULTISIGVERIFY, mbind, vmM_bind.
  destruct (do_OP_CHECKMULTISIG vm) as [r vm1] eqn:Hrun.
  apply (do_OP_CHECKMULTISIG_effect _ _ _ _ _ _ Hops) in Hrun as (Hop & Hfl & Hstk).
  destruct vm1 as [stk n f]. simpl in *. subst n f.
  destruct r as [[]|e].
  - destruct Hstk as [-> | ->]; rewrite verify_top_cons.
    + rewrite Ht. repeat split; try done.
      intros [= Heq]. rewrite <- Heq in Hf. congruence.
    + rewrite Hf. repeat split; try done.
      intros [= Heq]. rewrite Heq in Hf. congruence.
  - subst stk. repeat split; try done; by intros e' vm' [= <- <-].
Qed.

(** ** Strict DER: the validator never reads out of bounds *)

Lemma index_iterbytes_range (b : blob) (i : Z) :
  0 <= i < len b →
  ∃ x, index (iterbytes b) i = Ok x ∧ 0 <= x < 256.
Proof.
  intros Hi. rewrite index_nonneg by lia. unfold iterbytes.
  rewrite list_lookup_fmap.
  destruct (b !! Z.to_nat i) as [y|] eqn:Hy.
  - exists (byte2Z y). split; [done | apply byte2Z_range].
  - apply lookup_ge_None in Hy. unfold len in Hi. lia.
Qed.

Lemma redundant_leading_zero_total (b : blob) (n i : Z) :
  (n > 1 → 0 <= i ∧ i + 1 < len b) →
  ∃ c, redundant_leading_zero (iterbytes b) n i = Ok c.
Proof.
  intros Hi. unfold redundant_leading_zero.
  case_bool_decide as Hn; [|by eexists].
  destruct (Hi Hn) as [Hi0 Hi1].
  destruct (index_iterbytes_range b i ltac:(lia)) as (x & -> & _).
  cbn [mbind result_bind]. case_bool_decide; [|by eexists].
  destruct (index_iterbytes_range b (i + 1) ltac:(lia)) as (y & -> & _).
  by eexists.
Qed.

Ltac der_index b i :=
  let x := fresh "x" in
  let Hx := fresh "Hx" in
  let Hr := fresh "Hr" in
  destruct (index_iterbytes_range b i) as (x & Hx & Hr);
  [ rewrite ?len_iterbytes in *; lia
  | rewrite Hx; cbn [mbind result_bind] ].

Ltac der_check :=
  unfold raise_if at 1;
  match goal with
  | |- context [bool_decide ?P] =>
      destruct (bool_decide_reflect P); [by right | cbn [mbind result_bind]]
  | |- context [truthy ?n] =>
      destruct (truthy n); [by right | cbn [mbind result_bind]]
  end.

(** X23: whatever the bytes, the strict-DER validation either accepts or
    raises a script error with [SIG_DER]; no index it reads is out of range,
    so it never raises [IndexError]. *)
Theorem check_valid_signature_verdict (b : blob) :
  check_valid_signature b = Ok tt
  ∨ check_valid_signature b = Raise (ScriptError (Some SIG_DER)).
Proof.
  unfold check_valid_signature. cbv zeta.
  destruct (_check_valid_signature_1 (iterbytes b)) as [[]|e] eqn:H1.
  - cbn [mbind result_bind].
    (* what the first pass established *)
    assert (9 <= len b ∧ ∃ r_len, index (iterbytes b) 3 = Ok r_len
                                   ∧ 0 <= r_len ∧ 5 + r_len < len b)
      as (Hls & r_len & Hr3 & Hr0 & Hr5).
    { unfold _check_valid_signature_1, raise_if in H1.
      rewrite len_iterbytes in H1.
      destruct (bool_decide_reflect (len b < 9 ∨ len b > 73)); [done|].
      cbn [mbind result_bind] in H1.
      destruct (index (iterbytes b) 0) as [x0|]; [|done].
      cbn [mbind result_bind] in H1.
      destruct (bool_decide (x0 ≠ 48)); [done|]. cbn [mbind result_bind] in H1.
      destruct (index (iterbytes b) 1) as [x1|]; [|done].
      cbn [mbind result_bind] in H1.
      destruct (bool_decide (x1 ≠ len b - 3)); [done|]. cbn [mbind result_bind] in H1.
      destruct (index_iterbytes_range b 3 ltac:(lia)) as (x3 & Hx3 & Hr).
      rewrite Hx3 in H1. cbn [mbind result_bind] in H1.
      destruct (bool_decide_reflect (5 + x3 >= len b)); [done|].
      split; [lia|]. exists x3. split; [done|]. lia. }
    unfold _check_valid_signature_2. rewrite len_iterbytes, Hr3.
    cbn [mbind result_bind].
    der_index b (5 + r_len). rename x into s_len.
    der_check. der_index b 2. der_check. der_check.
    der_index b 4. der_check.
    destruct (redundant_leading_zero_total b r_len 4 ltac:(lia)) as [cr ->].
    cbn [mbind result_bind]. destruct cr; [by right|].
    unfold raise_if at 1. cbn [mbind result_bind].
    der_index b (r_len + 4). der_check. der_check.
    der_index b (r_len + 6). der_check.
    destruct (redundant_leading_zero_total b s_len (r_len + 6) ltac:(lia)) as [cs ->].
    cbn [mbind result_bind]. destruct cs; [by right | by left].
  - right. cbn [mbind result_bind].
    unfold _check_valid_signature_1, raise_if in H1.
    rewrite len_iterbytes in H1.
    destruct (bool_decide_reflect (len b < 9 ∨ len b > 73));
      cbn [mbind result_bind] in H1; [congruence|].
    destruct (index_iterbytes_range b 0 ltac:(lia)) as (x0 & Hx0 & _).
    rewrite Hx0 in H1. cbn [mbind result_bind] in H1.
    destruct (bool_decide (x0 ≠ 48)); cbn [mbind result_bind] in H1; [congruence|].
    destruct (index_iterbytes_range b 1 ltac:(lia)) as (x1 & Hx1 & _).
    rewrite Hx1 in H1. cbn [mbind result_bind] in H1.
    destruct (bool_decide (x1 ≠ len b - 3)); cbn [mbind result_bind] in H1;
      [congruence|].
    destruct (index_iterbytes_range b 3 ltac:(lia)) as (x3 & Hx3 & _).
    rewrite Hx3 in H1. cbn [mbind result_bind] in H1.
    destruct (bool_decide (5 + x3 >= len b)); [congruence | done].
Qed.

(** ** Strict DER: the accepted layout *)

Lemma index_after (a0 a1 a2 a3 : Z) (zR tl : list Z) (n k : Z) :
  n = len zR → 0 <= k →
  index (a0 :: a1 :: a2 :: a3 :: zR ++ tl) (n + 4 + k) = index tl k.
Proof.
  intros -> Hk. pose proof (len_nonneg zR).
  rewrite !index_nonneg by lia.
  change (a0 :: a1 :: a2 :: a3 :: zR ++ tl) with ([a0; a1; a2; a3] ++ (zR ++ tl)).
  unfold len.
  rewrite lookup_app_r by (cbn [length]; lia).
  rewrite lookup_app_r by (cbn [length]; lia).
  match goal with
  | |- context [tl !! ?i] =>
      replace i with (Z.to_nat k) by (cbn [length]; lia)
  end.
  done.
Qed.

Lemma truthy_land_0x80 (y : byte) :
  truthy (Z.land (byte2Z y) 0x80) = negb (byte2Z y <? 0x80).
Proof. by destruct y. Qed.

Lemma der_integer_nonempty (X : blob) : der_integer X = true → 1 <= len X.
Proof. destruct X; [done|]. intros _. unfold len. simpl. lia. Qed.

Lemma pass1_cons (b0 b1 b2 b3 : byte) (rest : blob) :
  let b := b0 :: b1 :: b2 :: b3 :: rest in
  _check_valid_signature_1 (iterbytes b)
  = (raise_if (bool_decide (len b < 9 ∨ len b > 73)) (ScriptError (Some SIG_DER));;
     raise_if (bool_decide (byte2Z b0 ≠ 0x30)) (ScriptError (Some SIG_DER));;
     raise_if (bool_decide (byte2Z b1 ≠ len b - 3)) (ScriptError (Some SIG_DER));;
     raise_if (bool_decide (5 + byte2Z b3 >= len b)) (ScriptError (Some SIG_DER))).
Proof.
  intros b. unfold _check_valid_signature_1.
  rewrite len_iterbytes, !index_nonneg by lia. reflexivity.
Qed.

Lemma iterbytes_canonical (b0 b1 b2 b3 c0 c1 : byte) (R T : blob) :
  iterbytes (b0 :: b1 :: b2 :: b3 :: R ++ c0 :: c1 :: T)
  = byte2Z b0 :: byte2Z b1 :: byte2Z b2 :: byte2Z b3
    :: iterbytes R ++ (byte2Z c0 :: byte2Z c1 :: iterbytes T).
Proof. unfold iterbytes. simpl. by rewrite map_app. Qed.

Lemma redundant_leading_zero_shift (l1 l2 : list Z) (n i : Z) :
  (∀ k, 0 <= k → index l1 (i + k) = index l2 k) →
  redundant_leading_zero l1 n i = redundant_leading_zero l2 n 0.
Proof.
  intros H. unfold redundant_leading_zero. change (0 + 1) with 1.
  rewrite <- (H 1), <- (H 0) by lia. by rewrite Z.add_0_r.
Qed.

Lemma redundant_leading_zero_cons (x y : Z) (l : list Z) (n : Z) :
  redundant_leading_zero (x :: y :: l) n 0
  = Ok (bool_decide (n > 1) && bool_decide (x = 0) && negb (truthy (Z.land y 0x80))).
Proof.
  unfold redundant_leading_zero. change (0 + 1) with 1.
  rewrite !index_nonneg by lia.
  change (Z.to_nat 0) with 0%nat. change (Z.to_nat 1) with 1%nat.
  cbn [lookup list_lookup mbind result_bind mret result_ret].
  by repeat case_bool_decide.
Qed.

Lemma len_cons {A} (x : A) (l : list A) : len (x :: l) = len l + 1.
Proof. unfold len. simpl. lia. Qed.

Lemma len_app {A} (l1 l2 : list A) : len (l1 ++ l2) = len l1 + len l2.
Proof. unfold len. rewrite length_app. lia. Qed.

Lemma len_nil {A} : len (@nil A) = 0.
Proof. done. Qed.

(** The second pass on a blob cut at the positions the length bytes
    announce. *)
Lemma pass2_canonical (b0 b1 b2 b3 c0 c1 : byte) (R T : blob) :
  byte2Z b3 = len R →
  let b := b0 :: b1 :: b2 :: b3 :: R ++ c0 :: c1 :: T in
  let e := ScriptError (Some SIG_DER) in
  _check_valid_signature_2 (iterbytes b)
  = (raise_if (bool_decide (len R + byte2Z c1 + 7 ≠ len b)) e;;
     raise_if (bool_decide (byte2Z b2 ≠ 2)) e;;
     raise_if (bool_decide (len R = 0)) e;;
     b4 ← index (iterbytes R ++ byte2Z c0 :: byte2Z c1 :: iterbytes T) 0;
     raise_if (truthy (Z.land b4 0x80)) e;;
     cr ← redundant_leading_zero
            (iterbytes R ++ byte2Z c0 :: byte2Z c1 :: iterbytes T) (len R) 0;
     raise_if cr e;;
     raise_if (bool_decide (byte2Z c0 ≠ 2)) e;;
     raise_if (bool_decide (byte2Z c1 = 0)) e;;
     bs0 ← index (iterbytes T) 0;
     raise_if (truthy (Z.land bs0 0x80)) e;;
     cs ← redundant_leading_zero (iterbytes T) (byte2Z c1) 0;
     raise_if cs e).
Proof.
  intros HR b e. unfold _check_valid_signature_2.
  rewrite len_iterbytes. subst b. rewrite iterbytes_canonical, HR.
  set (zR := iterbytes R). set (tl := byte2Z c0 :: byte2Z c1 :: iterbytes T).
  set (full := byte2Z b0 :: byte2Z b1 :: byte2Z b2 :: len R :: zR ++ tl).
  assert (len R = len zR) as HzR by (subst zR; by rewrite len_iterbytes).
  assert (∀ k, 0 <= k → index full (len R + 4 + k) = index tl k) as Htl.
  { intros k Hk. by apply index_after. }
  assert (∀ k, 0 <= k → index full (4 + k) = index (zR ++ tl) k) as Hmid.
  { intros k Hk. replace (4 + k) with (0 + 4 + k) by lia.
    by apply (index_after _ _ _ _ [] (zR ++ tl) 0 k). }
  assert (index full 3 = Ok (len R)) as -> by (by rewrite index_nonneg by lia).
  assert (index full 2 = Ok (byte2Z b2)) as -> by (by rewrite index_nonneg by lia).
  cbn [mbind result_bind].
  assert (index full (5 + len R) = Ok (byte2Z c1)) as ->.
  { replace (5 + len R) with (len R + 4 + 1) by lia. rewrite Htl by lia.
    by rewrite index_nonneg by lia. }
  cbn [mbind result_bind].
  assert (index full 4 = index (zR ++ tl) 0) as ->.
  { replace 4 with (4 + 0) at 1 by lia. by apply Hmid. }
  assert (index full (len R + 4) = Ok (byte2Z c0)) as ->.
  { replace (len R + 4) with (len R + 4 + 0) by lia. rewrite Htl by lia.
    by rewrite index_nonneg by lia. }
  assert (index full (len R + 6) = index (iterbytes T) 0) as ->.
  { replace (len R + 6) with (len R + 4 + 2) by lia. rewrite Htl by lia.
    by rewrite !index_nonneg by lia. }
  rewrite (redundant_leading_zero_shift full (zR ++ tl) (len R) 4) by exact Hmid.
  rewrite (redundant_leading_zero_shift full (iterbytes T) (byte2Z c1) (len R + 6)).
  2:{ intros k Hk. replace (len R + 6 + k) with (len R + 4 + (2 + k)) by lia.
      rewrite Htl by lia. subst tl. rewrite !index_nonneg by lia.
      replace (Z.to_nat (2 + k)) with (S (S (Z.to_nat k))) by lia. done. }
  reflexivity.
Qed.

Lemma der_integer_one (x : byte) : der_integer [x] = true ↔ byte2Z x < 0x80.
Proof. simpl. rewrite andb_true_r. apply Z.ltb_lt. Qed.

Lemma der_integer_two (x y : byte) (l : blob) :
  der_integer (x :: y :: l) = true
  ↔ byte2Z x < 0x80 ∧ (byte2Z x ≠ 0 ∨ 0x80 <= byte2Z y).
Proof.
  simpl. rewrite andb_true_iff, orb_true_iff, negb_true_iff, Z.ltb_lt, Z.leb_le.
  by rewrite Z.eqb_neq.
Qed.

Ltac der_norm H :=
  repeat first
    [ rewrite andb_true_iff in H | rewrite andb_false_iff in H
    | rewrite bool_decide_eq_true in H | rewrite bool_decide_eq_false in H
    | rewrite negb_true_iff in H | rewrite negb_false_iff in H
    | rewrite Z.ltb_lt in H | rewrite Z.ltb_ge in H ].

Ltac der_no :=
  split; [done | let Hq := fresh "Hq" in intros Hq; first [lia | congruence | tauto]].

Ltac der_cond c :=
  let Hc := fresh "Hc" in
  destruct c eqn:Hc; der_norm Hc; cbn [raise_if mbind result_bind];
  [der_no|].

Ltac der_step :=
  match goal with
  | |- (raise_if ?c _ ≫= _) = _ ↔ _ => der_cond c
  | |- ((raise_if ?c _ ≫= _) ≫= _) = _ ↔ _ => der_cond c
  | |- raise_if ?c _ = _ ↔ _ => der_cond c
  end.

(** Acceptance of a blob cut at the positions its length bytes announce. *)
Lemma check_valid_signature_layout (b0 b1 b2 b3 c0 c1 : byte) (R T : blob) :
  byte2Z b3 = len R →
  let b := b0 :: b1 :: b2 :: b3 :: R ++ c0 :: c1 :: T in
  check_valid_signature b = Ok tt
  ↔ len b <= 73 ∧ byte2Z b0 = 0x30 ∧ byte2Z b1 = len b - 3
    ∧ byte2Z b2 = 2 ∧ byte2Z c0 = 2
    ∧ len T = byte2Z c1 + 1
    ∧ der_integer R = true ∧ der_integer (removelast T) = true.
Proof.
  intros HR b. unfold check_valid_signature. cbv zeta.
  subst b. rewrite pass1_cons, (pass2_canonical _ _ _ _ _ _ _ _ HR). cbv zeta.
  pose proof (byte2Z_range c0). pose proof (byte2Z_range c1).
  pose proof (len_nonneg R). pose proof (len_nonneg T).
  assert (len (b0 :: b1 :: b2 :: b3 :: R ++ c0 :: c1 :: T) = len R + len T + 6) as ->.
  { rewrite !len_cons, len_app, !len_cons. lia. }
  destruct R as [|r0 [|r1 R']]; destruct T as [|t0 [|t1 [|t2 T']]];
    rewrite ?len_cons in *; change (len (@nil byte)) with 0 in *;
    cbn [removelast];
    rewrite ?der_integer_one, ?der_integer_two;
    change (der_integer []) with false;
    cbn [iterbytes map app];
    rewrite ?redundant_leading_zero_cons, ?(index_nonneg _ 0) by lia;
    change (Z.to_nat 0) with 0%nat;
    cbn [lookup list_lookup mbind result_bind];
    rewrite ?truthy_land_0x80, ?negb_involutive;
    repeat match goal with
           | |- context [len ?l] =>
               lazymatch goal with
               | _ : 0 <= len l |- _ => fail
               | _ => pose proof (len_nonneg l)
               end
           end;
    repeat der_step;
    first [ exfalso; lia | der_no | split; [intros _; lia | done] ].
Qed.

Lemma check_valid_signature_pass1 (b0 b1 b2 b3 : byte) (rest : blob) :
  check_valid_signature (b0 :: b1 :: b2 :: b3 :: rest) = Ok tt →
  5 + byte2Z b3 < len (b0 :: b1 :: b2 :: b3 :: rest).
Proof.
  unfold check_valid_signature. cbv zeta. rewrite pass1_cons. cbv zeta.
  repeat match goal with
         | |- ((raise_if (bool_decide ?P) _ ≫= _) ≫= _) = _ → _ =>
             destruct (bool_decide_reflect P);
             cbn [raise_if mbind result_bind]; [done|]
         | |- (raise_if (bool_decide ?P) _ ≫= _) = _ → _ =>
             destruct (bool_decide_reflect P);
             cbn [raise_if mbind result_bind]; [done|]
         end.
  intros _. lia.
Qed.

(** X24: the strict-DER validation accepts exactly the blobs laid out as
    [0x30 L 0x02 r_len R 0x02 s_len S hashtype] with [L] the total length
    minus three, [R] and [S] of the announced lengths, each non-empty, with a
    first byte below 0x80 and no leading zero byte except in front of a byte
    of 0x80 or more, and at most 73 bytes in all. *)
Theorem check_valid_signature_strict_der (sig : blob) :
  check_valid_signature sig = Ok tt ↔ strict_der_shape sig.
Proof.
  split.
  - intros Hok.
    pose proof (check_valid_signature_ok_size sig Hok) as Hsize.
    destruct sig as [|b0 [|b1 [|b2 [|b3 rest]]]];
      try (unfold len in Hsize; simpl in Hsize; lia).
    pose proof (check_valid_signature_pass1 _ _ _ _ _ Hok) as Hr.
    pose proof (byte2Z_range b3) as Hb3.
    rewrite !len_cons in Hr.
    assert (rest = take (Z.to_nat (byte2Z b3)) rest
                   ++ drop (Z.to_nat (byte2Z b3)) rest) as Hsplit
      by (by rewrite take_drop).
    set (R := take (Z.to_nat (byte2Z b3)) rest) in *.
    assert (byte2Z b3 = len R) as HR.
    { subst R. unfold len in *. rewrite length_take. lia. }
    destruct (drop (Z.to_nat (byte2Z b3)) rest) as [|c0 [|c1 T]] eqn:Hdrop.
    + apply (f_equal length) in Hdrop. rewrite length_drop in Hdrop.
      unfold len in *. simpl in Hdrop. lia.
    + apply (f_equal length) in Hdrop. rewrite length_drop in Hdrop.
      unfold len in *. simpl in Hdrop. lia.
    + rewrite Hsplit in Hok |- *.
      apply (check_valid_signature_layout _ _ _ _ _ _ _ _ HR) in Hok
        as (H73 & H0 & H1 & H2 & Hc0 & HT & HderR & HderS).
      pose proof (byte2Z_range c1).
      destruct (decide (T = [])) as [->|HTne];
        [change (len (@nil byte)) with 0 in HT; lia|].
      destruct (exists_last HTne) as (S & h & ->).
      rewrite removelast_last in HderS.
      exists b1, b3, c1, h, R, S.
      rewrite len_app, len_cons in HT. change (len (@nil byte)) with 0 in HT.
      assert (b0 = x30) as -> by (by apply byte2Z_inj).
      assert (b2 = x02) as -> by (by apply byte2Z_inj).
      assert (c0 = x02) as -> by (by apply byte2Z_inj).
      repeat split; try done. lia.
  - intros (L & rl & sl & h & R & S & -> & HL & Hrl & Hsl & HR & HS & H73).
    change ([x30; L; x02; rl] ++ R ++ [x02; sl] ++ S ++ [h])
      with (x30 :: L :: x02 :: rl :: R ++ x02 :: sl :: (S ++ [h])) in *.
    apply (check_valid_signature_layout _ _ _ _ _ _ _ _ Hrl).
    rewrite removelast_last.
    repeat split; try done.
    rewrite len_app, len_cons. change (len (@nil byte)) with 0. lia.
Qed.

End FurtherProperties.

(** * Further concrete runs *)

Lemma stub_sec_to_public_pair_raises (k : blob) (strict : bool) (e : exn) :
  stub_sec_to_public_pair k strict = Raise e → e = EncodingError.
Proof. destruct k as [|? [|? [|? ?]]]; simpl; congruence. Qed.

Lemma stub_keys_pass (keys : list blob) (k : blob) :
  k ∈ keys →
  when (truthy (Z.land 0 (@VERIFY_STRICTENC stub)))
       (check_public_key_encoding k) = Ok tt
  ∧ when (truthy (Z.land 0 (@VERIFY_WITNESS_PUBKEYTYPE stub)))
         (check_witness_pubkeytype k) = Ok tt
  ∧ ∀ e, @sec_to_public_pair stub k (truthy (Z.land 0 (@VERIFY_STRICTENC stub)))
         = Raise e → e = EncodingError.
Proof.
  intros _. split; [reflexivity|]. split; [reflexivity|].
  intros e. apply stub_sec_to_public_pair_raises.
Qed.

Lemma check_defined_hashtype_signature_defined_witness :
  @check_defined_hashtype_signature stub [x00; x05; x83] = Ok tt
  ∧ @check_defined_hashtype_signature stub [x00; x05; x04]
    = Raise (ScriptError (Some SIG_HASHTYPE)).
Proof.
  split.
  - apply (@check_defined_hashtype_signature_defined stub [x00; x05; x83] x83
             eq_refl eq_refl eq_refl eq_refl).
    repeat (first [apply list_elem_of_here | apply list_elem_of_further]).
  - apply (@check_defined_hashtype_signature_defined stub [x00; x05; x04] x04
             eq_refl eq_refl eq_refl eq_refl).
    intros Hx. repeat (apply elem_of_cons in Hx as [Hx|Hx]; [discriminate|]).
    by apply elem_of_nil in Hx.
Defined.

Lemma parse_signature_blob_returns_witness :
  @parse_signature_blob stub [x00; x05; x01] 0 = Ok ((0, 5), 1)
  ∧ @sigdecode_der stub (all_but_last [x00; x05; x01]) = Ok (0, 5)
  ∧ ∃ b, last [x00; x05; x01] = Some b ∧ 1 = byte2Z b.
Proof.
  split; [reflexivity|].
  destruct (@parse_signature_blob_returns stub [x00; x05; x01] 0 0 5 1 eq_refl)
    as (H1 & H2 & _).
  split; [exact H1 | exact H2].
Defined.

Lemma do_OP_CHECKSIG_stack_effect_witness :
  @do_OP_CHECKSIG stub (mkVM [[x02; x00]; [x00; x05; x01]; [x07]] 3 0)
  = (Ok tt, mkVM [@VM_TRUE stub; [x07]] 3 0)
  ∧ op_count (mkVM [@VM_TRUE stub; [x07]] 3 0) = 3.
Proof.
  split; [reflexivity|].
  destruct (@do_OP_CHECKSIG_stack_effect stub
              (mkVM [[x02; x00]; [x00; x05; x01]; [x07]] 3 0)
              (mkVM [@VM_TRUE stub; [x07]] 3 0)
              [x02; x00] [x00; x05; x01] [[x07]] (Ok tt) eq_refl eq_refl)
    as (H & _).
  exact H.
Defined.

Lemma do_OP_CHECKSIG_true_iff_witness :
  @do_OP_CHECKSIG stub (mkVM [[x02; x00]; [x00; x05; x01]] 0 0)
  = (Ok tt, mkVM [@VM_TRUE stub] 0 0).
Proof.
  apply (@do_OP_CHECKSIG_true_iff stub (mkVM [[x02; x00]; [x00; x05; x01]] 0 0)
           [x02; x00] [x00; x05; x01] [] eq_refl).
  - discriminate.
  - split; [reflexivity|]. split; [reflexivity|].
    exists (0, 5), 1, (0, 2), 0. repeat split; reflexivity.
Defined.

(** A signature made by the key (0, 2) checked against the key (1, 2). *)
Lemma do_OP_CHECKSIG_verify_fails_softly_witness :
  @do_OP_CHECKSIG stub (mkVM [[x02; x01]; [x00; x05; x01]] 0 0)
  = (Ok tt, mkVM [@VM_FALSE stub] 0 0).
Proof.
  apply (@do_OP_CHECKSIG_verify_fails_softly stub
           (mkVM [[x02; x01]; [x00; x05; x01]] 0 0)
           [x02; x01] [x00; x05; x01] [] (0, 5) (1, 2) 1 0);
    reflexivity.
Defined.

Lemma do_OP_CHECKSIG_witness_pubkeytype_witness :
  @do_OP_CHECKSIG stub
     (mkVM [[x04; x00]; [x00; x05; x01]] 0 (@VERIFY_WITNESS_PUBKEYTYPE stub))
  = (Raise (ScriptError (Some WITNESS_PUBKEYTYPE)),
     mkVM [] 0 (@VERIFY_WITNESS_PUBKEYTYPE stub)).
Proof.
  apply (@do_OP_CHECKSIG_witness_pubkeytype stub
           (mkVM [[x04; x00]; [x00; x05; x01]] 0 (@VERIFY_WITNESS_PUBKEYTYPE stub))
           [x04; x00] [x00; x05; x01] []).
  - reflexivity.
  - reflexivity.
  - discriminate.
  - intros [Hlen _]. vm_compute in Hlen. discriminate.
  - left. reflexivity.
Defined.

(** One key, a signature count of two. *)
Lemma do_OP_CHECKMULTISIG_sig_count_out_of_range_witness :
  @do_OP_CHECKMULTISIG stub (mkVM [[x01]; [x02; x00]; [x02]; [x09]] 0 0)
  = (Raise (ScriptError (Some SIG_COUNT)), mkVM [[x09]] 1 0).
Proof.
  apply (@do_OP_CHECKMULTISIG_sig_count_out_of_range stub
           (mkVM [[x01]; [x02; x00]; [x02]; [x09]] 0 0)
           [x01] [x02] [[x02; x00]] [[x09]] 2).
  - reflexivity.
  - reflexivity.
  - unfold len. simpl. lia.
  - reflexivity.
  - right. unfold len. simpl. lia.
Defined.

Lemma do_OP_CHECKMULTISIG_nulldummy_witness :
  @do_OP_CHECKMULTISIG stub
     (mkVM [[x01]; [x02; x00]; [x01]; [x00; x05; x01]; [x01]] 0
           (@VERIFY_NULLDUMMY stub))
  = (Raise (ScriptError (Some SIG_NULLDUMMY)), mkVM [] 1 (@VERIFY_NULLDUMMY stub)).
Proof.
  apply (@do_OP_CHECKMULTISIG_nulldummy stub
           (mkVM [[x01]; [x02; x00]; [x01]; [x00; x05; x01]; [x01]] 0
                 (@VERIFY_NULLDUMMY stub))
           [x01] [x01] [x01] [[x02; x00]] [[x00; x05; x01]] []).
  - reflexivity.
  - reflexivity.
  - unfold len. simpl. lia.
  - reflexivity.
  - unfold len. simpl. lia.
  - reflexivity.
  - discriminate.
Defined.

(** Zero signatures, one key blob that is no key at all. *)
Lemma do_OP_CHECKMULTISIG_no_signatures_witness :
  @do_OP_CHECKMULTISIG stub (mkVM [[x01]; [xff]; []; []] 0 0)
  = (Ok tt, mkVM [@VM_TRUE stub] 1 0).
Proof.
  apply (@do_OP_CHECKMULTISIG_no_signatures stub (mkVM [[x01]; [xff]; []; []] 0 0)
           [[xff]] [] eq_refl).
  exists [x01], [], []. repeat split; try reflexivity; by vm_compute.
Defined.

Lemma do_OP_CHECKMULTISIG_stack_effect_witness :
  @do_OP_CHECKMULTISIG stub
     (mkVM [[x02]; [x02; x00]; [x02; x01]; [x01]; [x01; x05; x01]; []; [x07]] 5 0)
  = (Ok tt, mkVM [@VM_TRUE stub; [x07]] 7 0)
  ∧ op_count (mkVM [@VM_TRUE stub; [x07]] 7 0) = 5 + len [[x02; x00]; [x02; x01]].
Proof.
  split; [reflexivity|].
  destruct (@do_OP_CHECKMULTISIG_stack_effect stub
              (mkVM [[x02]; [x02; x00]; [x02; x01]; [x01]; [x01; x05; x01]; []; [x07]]
                    5 0)
              (mkVM [@VM_TRUE stub; [x07]] 7 0)
              [[x02; x00]; [x02; x01]] [[x01; x05; x01]] [[x07]] (Ok tt))
    as (H & _).
  - exists [x02], [x01], []. repeat split; try reflexivity; by vm_compute.
  - reflexivity.
  - exact H.
Defined.

Lemma find_public_pair_first_match_witness :
  @find_public_pair stub [[x02; x00]; [x02; x01]] [(1, 2)] 0 false 0 (-1) = Ok 1
  ∧ ∃ (i : nat) k, [[x02; x00]; [x02; x01]] !! i = Some k
                   ∧ 1 = -1 + 1 + Z.of_nat i
                   ∧ @key_matches stub false [(1, 2)] k.
Proof.
  split; [reflexivity|].
  destruct (@find_public_pair_first_match stub [[x02; x00]; [x02; x01]] [(1, 2)]
              0 false 0 (-1) 1 eq_refl)
    as [[H _]|(i & k & Hr & _ & Hk & Hm & _)].
  - discriminate.
  - exists i, k. split; [exact Hk|]. split; [exact Hr | exact Hm].
Defined.

Lemma sig_blob_matches_shape_witness :
  @sig_blob_matches stub (mkVM [] 0 0) [[x01; x05; x01]; [x09]]
     [[x02; x00]; [x02; x01]; [x02; x02]] 0 = Ok [1; -1]
  ∧ (length [1%Z; (-1)%Z] <= length [[x01; x05; x01]; [x09]])%nat.
Proof.
  split; [reflexivity|].
  apply (@sig_blob_matches_shape stub (mkVM [] 0 0) [[x01; x05; x01]; [x09]]
           [[x02; x00]; [x02; x01]; [x02; x02]] 0 [1; -1]).
  reflexivity.
Defined.

(** An empty first signature blob in front of a good one. *)
Lemma sig_blob_matches_undecodable_head_witness :
  @sig_blob_matches stub (mkVM [] 0 0) [[]; [x00; x05; x01]]
     [[x02; x00]; [x02; x01]] 0 = Ok [-1].
Proof.
  apply (@sig_blob_matches_undecodable_head stub (mkVM [] 0 0) []
           [[x00; x05; x01]] [[x02; x00]; [x02; x01]] 0 ValueError).
  - unfold len. simpl. lia.
  - reflexivity.
  - left. reflexivity.
Defined.

Lemma sig_blob_matches_sound_witness :
  ∃ k, k ∈ [[x02; x00]; [x02; x01]]
       ∧ @signed_by stub (mkVM [] 0 0) [[x01; x05; x01]] 0 [x01; x05; x01] k.
Proof.
  apply (@sig_blob_matches_sound stub (mkVM [] 0 0) [[x01; x05; x01]]
           [[x02; x00]; [x02; x01]] 0 [1]).
  - reflexivity.
  - intros Hx. apply list_elem_of_singleton in Hx. discriminate.
  - reflexivity.
  - apply list_elem_of_here.
Defined.

Lemma stub_signed_by_second_key (vm : VM) :
  @signed_by stub vm [[x01; x05; x01]] 0 [x01; x05; x01] [x02; x01].
Proof.
  exists (1, 5), 1, 0, [(1, 2)]. repeat split; try reflexivity.
  exists (1, 2). split; [reflexivity | apply list_elem_of_here].
Qed.

Lemma sig_blob_matches_accepts_within_window_witness :
  ∃ sig_blob_indices,
    @sig_blob_matches stub (mkVM [] 0 0) [[x01; x05; x01]]
       [[x02; x00]; [x02; x01]] 0 = Ok sig_blob_indices
    ∧ accepted sig_blob_indices [[x01; x05; x01]] = true.
Proof.
  apply (@sig_blob_matches_accepts_within_window stub (mkVM [] 0 0)
           [[x01; x05; x01]] [[x02; x00]; [x02; x01]] 0).
  - intros k. apply stub_keys_pass.
  - intros [|i] s Hs; [|destruct i; discriminate].
    injection Hs as <-. exists 1%nat, [x02; x01].
    split; [reflexivity|]. split; [apply stub_signed_by_second_key|].
    simpl. lia.
Defined.

Lemma stub_signed_by (vm : VM) (blobs : list blob) (r s t : byte) :
  @signed_by stub vm blobs 0 [r; s; t] [x02; r].
Proof.
  exists (byte2Z r, byte2Z s), (byte2Z t), 0, [(byte2Z r, 2)].
  repeat split; try reflexivity.
  exists (byte2Z r, 2). split; [reflexivity | apply list_elem_of_here].
Qed.

(** Three keys; the first signature is made by the key at position 0, the
    second by the key at position 2. *)
Lemma sig_blob_matches_accepts_in_order_witness :
  @sig_blob_matches stub (mkVM [] 0 0) [[x00; x05; x01]; [x02; x05; x01]]
     [[x02; x00]; [x02; x01]; [x02; x02]] 0 = Ok [0; 3]
  ∧ ∃ sig_blob_indices,
      @sig_blob_matches stub (mkVM [] 0 0) [[x00; x05; x01]; [x02; x05; x01]]
         [[x02; x00]; [x02; x01]; [x02; x02]] 0 = Ok sig_blob_indices
      ∧ accepted sig_blob_indices [[x00; x05; x01]; [x02; x05; x01]] = true.
Proof.
  split; [reflexivity|].
  apply (@sig_blob_matches_accepts_in_order stub (mkVM [] 0 0)
           [[x00; x05; x01]; [x02; x05; x01]]
           [[x02; x00]; [x02; x01]; [x02; x02]] 0 [0%nat; 2%nat]).
  - intros k. apply stub_keys_pass.
  - reflexivity.
  - intros [|[|i]] a b Ha Hb.
    + injection Ha as <-. injection Hb as <-. lia.
    + discriminate.
    + discriminate.
  - intros [|[|i]] s Hs.
    + injection Hs as <-. exists 0%nat, [x02; x00].
      split; [reflexivity|]. split; [reflexivity|]. apply stub_signed_by.
    + injection Hs as <-. exists 2%nat, [x02; x02].
      split; [reflexivity|]. split; [reflexivity|]. apply stub_signed_by.
    + discriminate.
Defined.

Lemma do_OP_CHECKMULTISIG_true_sound_witness :
  @do_OP_CHECKMULTISIG stub
     (mkVM [[x02]; [x02; x00]; [x02; x01]; [x01]; [x01; x05; x01]; []] 0 0)
  = (Ok tt, mkVM [@VM_TRUE stub] 2 0)
  ∧ ∃ k, k ∈ [[x02; x00]; [x02; x01]]
         ∧ @signed_by stub (mkVM [] 2 0) [[x01; x05; x01]] 0 [x01; x05; x01] k.
Proof.
  split; [reflexivity|].
  apply (@do_OP_CHECKMULTISIG_true_sound stub
           (mkVM [[x02]; [x02; x00]; [x02; x01]; [x01]; [x01; x05; x01]; []] 0 0)
           [[x02; x00]; [x02; x01]] [[x01; x05; x01]] []).
  - discriminate.
  - exists [x02], [x01], []. repeat split; try reflexivity; by vm_compute.
  - reflexivity.
  - apply list_elem_of_here.
Defined.

(** Three keys, two signatures made by the keys at positions 0 and 2, in
    that order. *)
Lemma do_OP_CHECKMULTISIG_in_order_witness :
  @do_OP_CHECKMULTISIG stub
     (mkVM [[x03]; [x02; x00]; [x02; x01]; [x02; x02];
            [x02]; [x00; x05; x01]; [x02; x05; x01]; []] 0 0)
  = (Ok tt, mkVM [@VM_TRUE stub] 3 0).
Proof.
  apply (@do_OP_CHECKMULTISIG_in_order stub
           (mkVM [[x03]; [x02; x00]; [x02; x01]; [x02; x02];
                  [x02]; [x00; x05; x01]; [x02; x05; x01]; []] 0 0)
           [[x02; x00]; [x02; x01]; [x02; x02]]
           [[x00; x05; x01]; [x02; x05; x01]] [] [0%nat; 2%nat]).
  - reflexivity.
  - exists [x03], [x02], []. repeat split; try reflexivity; by vm_compute.
  - intros k. apply stub_keys_pass.
  - reflexivity.
  - intros [|[|i]] a b Ha Hb.
    + injection Ha as <-. injection Hb as <-. lia.
    + discriminate.
    + discriminate.
  - intros [|[|i]] s Hs.
    + injection Hs as <-. exists 0%nat, [x02; x00].
      split; [reflexivity|]. split; [reflexivity|]. apply stub_signed_by.
    + injection Hs as <-. exists 2%nat, [x02; x02].
      split; [reflexivity|]. split; [reflexivity|]. apply stub_signed_by.
    + discriminate.
Defined.

(** A good signature leaves the stack empty; one made by another key raises
    [VERIFY]. *)
Lemma do_OP_CHECKSIGVERIFY_verdict_witness :
  @do_OP_CHECKSIGVERIFY stub stub_bool_from_script_bytes
     (mkVM [[x02; x00]; [x00; x05; x01]] 0 0) = (Ok tt, mkVM [] 0 0)
  ∧ @do_OP_CHECKSIGVERIFY stub stub_bool_from_script_bytes
      (mkVM [[x02; x01]; [x00; x05; x01]] 0 0)
    = (Raise (ScriptError (Some VERIFY)), mkVM [] 0 0).
Proof.
  split.
  - apply (@do_OP_CHECKSIGVERIFY_verdict stub stub_bool_from_script_bytes
             (mkVM [[x02; x00]; [x00; x05; x01]] 0 0)
             [x02; x00] [x00; x05; x01] [] eq_refl eq_refl eq_refl).
    reflexivity.
  - destruct (@do_OP_CHECKSIGVERIFY_verdict stub stub_bool_from_script_bytes
                (mkVM [[x02; x01]; [x00; x05; x01]] 0 0)
                [x02; x01] [x00; x05; x01] [] eq_refl eq_refl eq_refl)
      as (_ & H & _).
    apply H. reflexivity.
Defined.

Lemma do_OP_CHECKMULTISIGVERIFY_verdict_witness :
  @do_OP_CHECKMULTISIGVERIFY stub stub_bool_from_script_bytes
     (mkVM [[x02]; [x02; x00]; [x02; x01]; [x01]; [x01; x05; x01]; []] 0 0)
  = (Ok tt, mkVM [] 2 0)
  ∧ @do_OP_CHECKMULTISIGVERIFY stub stub_bool_from_script_bytes
      (mkVM [[x02]; [x02; x00]; [x02; x01]; [x01]; [x09; x05; x01]; []] 0 0)
    = (Raise (ScriptError (Some VERIFY)), mkVM [] 2 0).
Proof.
  split.
  - apply (@do_OP_CHECKMULTISIGVERIFY_verdict stub stub_bool_from_script_bytes
             (mkVM [[x02]; [x02; x00]; [x02; x01]; [x01]; [x01; x05; x01]; []] 0 0)
             [[x02; x00]; [x02; x01]] [[x01; x05; x01]] []).
    + exists [x02], [x01], []. repeat split; try reflexivity; by vm_compute.
    + reflexivity.
    + reflexivity.
    + reflexivity.
  - destruct (@do_OP_CHECKMULTISIGVERIFY_verdict stub stub_bool_from_script_bytes
                (mkVM [[x02]; [x02; x00]; [x02; x01]; [x01]; [x09; x05; x01]; []] 0 0)
                [[x02; x00]; [x02; x01]] [[x09; x05; x01]] [])
      as (_ & H & _).
    + exists [x02], [x01], []. repeat split; try reflexivity; by vm_compute.
    + reflexivity.
    + reflexivity.
    + apply H. reflexivity.
Defined.

(** The shortest well-formed signature blob: R = S = 1, hash type 1. *)
Lemma check_valid_signature_strict_der_witness :
  check_valid_signature [x30; x06; x02; x01; x01; x02; x01; x01; x01] = Ok tt.
Proof.
  apply check_valid_signature_strict_der.
  exists x06, x01, x01, x01, [x01], [x01].
  repeat split; try reflexivity. by vm_compute.
Defined.
